(** * naver_realtime_scraper: a shallow embedding and its properties

    The development follows [naver_realtime_scraper.py] function by
    function.  Python strings are sequences of Unicode code points, so a
    [str] is a [list N]; [len] is [length].  The browser, the rendered
    pages and the clock are outside the program: they are gathered in a
    [World] record of outcomes, and the code that talks to them runs in a
    small state-and-exception monad that records every external call. *)

From Stdlib Require Import ZArith NArith Ascii String DecimalString.
From stdpp Require Import gmap strings list sorting.

Open Scope Z_scope.
Open Scope nat_scope.

(** ** Python strings *)

Abbreviation pystr := (list N).

(** An ASCII literal of the source as a sequence of code points. *)
Definition py (s : string) : pystr :=
  map N_of_ascii (list_ascii_of_string s).

(** [str.startswith] *)
Fixpoint startswith (s p : pystr) {struct p} : bool :=
  match p, s with
  | [], _ => true
  | _ :: _, [] => false
  | a :: p', b :: s' => (a =? b)%N && startswith s' p'
  end.

(** [needle in hay] on strings: [needle] starts at some position. *)
Fixpoint contains (needle hay : pystr) : bool :=
  startswith hay needle ||
  match hay with
  | [] => false
  | _ :: hay' => contains needle hay'
  end.

(** Characters for which [str.isspace] holds; the [re] module's [\s]
    on a [str] pattern is the same set. *)
Definition is_space (c : N) : bool :=
  ((9 <=? c) && (c <=? 13) || (28 <=? c) && (c <=? 32) ||
   (c =? 133) || (c =? 160) || (c =? 5760) ||
   (8192 <=? c) && (c <=? 8202) ||
   (c =? 8232) || (c =? 8233) || (c =? 8239) || (c =? 8287) ||
   (c =? 12288))%N.

Definition SPACE : N := 32%N.

(** [re.sub(r"\s+", " ", s)]: every maximal run of whitespace becomes one
    space.  [in_run] tells that the previous character was whitespace. *)
Fixpoint collapse_ws (in_run : bool) (s : pystr) : pystr :=
  match s with
  | [] => []
  | c :: r =>
      if is_space c
      then (if in_run then collapse_ws true r else SPACE :: collapse_ws true r)
      else c :: collapse_ws false r
  end.

Fixpoint lstrip (s : pystr) : pystr :=
  match s with
  | [] => []
  | c :: r => if is_space c then lstrip r else s
  end.

Definition rstrip (s : pystr) : pystr := reverse (lstrip (reverse s)).

(** [str.strip()] *)
Definition strip (s : pystr) : pystr := rstrip (lstrip s).

(** [re.sub(r"\s+", " ", s).strip()], the normalisation shared by
    [unique_top] and [scrape_popular_articles]. *)
Definition normalize_text (s : pystr) : pystr := strip (collapse_ws false s).

(** ** unique_top *)

Fixpoint unique_top_loop (values : list pystr) (limit : Z)
    (seen : gset pystr) (out : list pystr) : list pystr :=
  match values with
  | [] => out
  | v :: rest =>
      let t := normalize_text v in
      if bool_decide (t = []) || bool_decide (t ∈ seen)
      then unique_top_loop rest limit seen out
      else
        let seen' := seen ∪ {[ t ]} in
        let out' := out ++ [t] in
        if (limit <=? Z.of_nat (length out'))%Z
        then out'
        else unique_top_loop rest limit seen' out'
  end.

Definition unique_top (values : list pystr) (limit : Z) : list pystr :=
  unique_top_loop values limit ∅ [].

(** ** normalize_article_href *)

Definition ORIGIN : pystr := py "https://news.naver.com".

Definition normalize_article_href (href : pystr) : pystr :=
  match href with
  | [] => []
  | _ :: _ =>
      if startswith href (py "http://") || startswith href (py "https://")
      then href
      else if startswith href (py "//") then py "https:" ++ href
      else if startswith href (py "/") then ORIGIN ++ href
      else ORIGIN ++ py "/" ++ href
  end.

(** ** The browser, the pages and the clock *)

(** Selenium's [TimeoutException] derives from [WebDriverException];
    [OtherException] stands for every class outside that hierarchy.
    The argument is the text [str(e)] yields. *)
Inductive exn :=
  | TimeoutException (msg : pystr)
  | WebDriverException (msg : pystr)
  | OtherException (msg : pystr).

(** [isinstance(e, WebDriverException)], the test made by both
    [except WebDriverException] and
    [except (TimeoutException, WebDriverException)]. *)
Definition is_WebDriverException (e : exn) : bool :=
  match e with
  | TimeoutException _ | WebDriverException _ => true
  | OtherException _ => false
  end.

Definition str_exn (e : exn) : pystr :=
  match e with
  | TimeoutException m | WebDriverException m | OtherException m => m
  end.

(** An element matched by [soup.select]: [a_text] is
    [a.get_text(" ", strip=True)], [a_href] the [href] attribute when the
    element has one. *)
Record Anchor := { a_text : pystr; a_href : option pystr }.

(** A parsed document, as far as the scrapers look at it.  [tbody_rows] is
    [None] when [soup.find("tbody", attrs={"jsname": "cC57zf"})] finds
    nothing; otherwise it lists, for each [tr] of that table body, the text
    [get_text(strip=True)] of its [div.mZ3RIc] when the row has one. *)
Record Soup := {
  tbody_rows : option (list (option pystr));
  select : pystr → list Anchor
}.

(** What the outside answers during one run. *)
Record World := {
  build_result : bool → option exn;      (* build_driver(headless) *)
  get_result : pystr → option exn;       (* driver.get(url) *)
  ready_result : pystr → option exn;     (* wait_dom_ready on that page *)
  source_result : pystr → exn + Soup;    (* driver.page_source, parsed *)
  quit_result : option exn;              (* driver.quit() *)
  now_isoformat : pystr                  (* datetime.now(utc).isoformat() *)
}.

(** The calls made on the driver and the selector queries, in order. *)
Inductive event :=
  | EvBuildDriver (headless : bool)
  | EvGet (url : pystr)
  | EvWaitDomReady
  | EvSleep (seconds : Z)
  | EvPageSource
  | EvSelect (sel : pystr)
  | EvQuit.

Record DriverState := { current : pystr; trace : list event }.

Definition initial : DriverState := {| current := py "data:,"; trace := [] |}.

Inductive outcome (A : Type) :=
  | Return (a : A)
  | Raise (e : exn).
Arguments Return {A} a.
Arguments Raise {A} e.

(** Computations that read and extend the driver state and may raise. *)
Definition M (A : Type) : Type := DriverState → outcome A * DriverState.

#[global] Instance M_ret : MRet M := λ A a st, (Return a, st).

#[global] Instance M_bind : MBind M := λ A B f m st,
  match m st with
  | (Return a, st') => f a st'
  | (Raise e, st') => (Raise e, st')
  end.

Definition emit (ev : event) : M unit :=
  λ st, (Return (), {| current := current st; trace := trace st ++ [ev] |}).

Definition raise {A} (e : exn) : M A := λ st, (Raise e, st).

Definition raise_if (r : option exn) : M unit :=
  match r with
  | None => mret ()
  | Some e => raise e
  end.

Definition current_url : M pystr := λ st, (Return (current st), st).

Definition navigate (url : pystr) : M unit :=
  λ st, (Return (), {| current := url; trace := trace st |}).

(** [try: body  except <classes matched by handles>: handler] *)
Definition try_except {A} (body : M A) (handles : exn → bool)
    (handler : exn → M A) : M A :=
  λ st, match body st with
        | (Return a, st') => (Return a, st')
        | (Raise e, st') => if handles e then handler e st' else (Raise e, st')
        end.

(** [try: body  finally: fin]; an exception of [fin] replaces the
    outcome of [body]. *)
Definition try_finally {A} (body : M A) (fin : M unit) : M A :=
  λ st, match body st with
        | (o, st') =>
            match fin st' with
            | (Return _, st'') => (o, st'')
            | (Raise e, st'') => (Raise e, st'')
            end
        end.

Section Run.
Variable w : World.

Definition build_driver (headless : bool) : M unit :=
  emit (EvBuildDriver headless);; raise_if (build_result w headless).

Definition driver_get (url : pystr) : M unit :=
  navigate url;; emit (EvGet url);; raise_if (get_result w url).

Definition wait_dom_ready : M unit :=
  url ← current_url; emit EvWaitDomReady;; raise_if (ready_result w url).

Definition sleep (seconds : Z) : M unit := emit (EvSleep seconds).

Definition page_source : M Soup :=
  url ← current_url;
  emit EvPageSource;;
  match source_result w url with
  | inl e => raise e
  | inr soup => mret soup
  end.

Definition soup_select (soup : Soup) (sel : pystr) : M (list Anchor) :=
  emit (EvSelect sel);; mret (select soup sel).

Definition driver_quit : M unit := emit EvQuit;; raise_if (quit_result w).

Definition utc_now : M pystr := mret (now_isoformat w).
End Run.

(** ** scrape_realtime_keywords *)

Definition TRENDS_URL : pystr :=
  py "https://trends.google.com/trending?geo=KR&hours=4".

Definition scrape_realtime_keywords (w : World) : M (list pystr) :=
  try_except
    (driver_get w TRENDS_URL;;
     wait_dom_ready w;;
     sleep 5;;
     soup ← page_source w;
     match tbody_rows soup with
     | None => mret []
     | Some [] => mret []
     | Some rows => mret (unique_top (omap id rows) 10)
     end)
    is_WebDriverException
    (λ _, mret []).

(** ** scrape_popular_articles *)

Record Article := { title : pystr; href : pystr }.

#[global] Instance Article_eq_dec : EqDecision Article.
Proof. solve_decision. Defined.

Definition URL_FIRST : pystr :=
  py "https://news.naver.com/main/ranking/popularDay.naver".

Definition URL_SECOND : pystr :=
  py "https://news.naver.com/main/ranking/popularDay.naver?mid=etc&sid1=111".

Definition URLS : list pystr := [URL_FIRST; URL_SECOND].

Definition SELECTORS : list pystr :=
  [ py ".rankingnews_list .list_title";
    py ".rankingnews_list a[href*='/article/']";
    py ".rankingnews_box a[href*='/article/']";
    py ".rankingnews_list li a";
    py ".rankingnews_box li a" ].

Definition ARTICLE_MARK : pystr := py "/article/".

(** The body of the loop over matched elements: [None] is [continue],
    [Some item] the dictionary appended to [raw]. *)
Definition candidate (a : Anchor) : option Article :=
  let title := normalize_text (a_text a) in
  let href := normalize_article_href (default [] (a_href a)) in
  if length title <? 4 then None
  else if negb (contains ARTICLE_MARK href) then None
  else Some {| title := title; href := href |}.

(** [for sel in selectors: for a in soup.select(sel): ...] *)
Fixpoint collect_raw (soup : Soup) (sels : list pystr) (raw : list Article)
    : M (list Article) :=
  match sels with
  | [] => mret raw
  | sel :: rest =>
      anchors ← soup_select soup sel;
      collect_raw soup rest (raw ++ omap candidate anchors)
  end.

Definition key_of (item : Article) : pystr * pystr := (title item, href item).

(** [for item in raw: ...]: [Some dedup] is [return dedup], [None] the
    loop running to its end. *)
Fixpoint dedup_loop (raw : list Article) (seen : gset (pystr * pystr))
    (dedup : list Article) : option (list Article) :=
  match raw with
  | [] => None
  | item :: rest =>
      let key := key_of item in
      if bool_decide (key ∈ seen) then dedup_loop rest seen dedup
      else
        let dedup' := dedup ++ [item] in
        if 10 <=? length dedup' then Some dedup'
        else dedup_loop rest (seen ∪ {[ key ]}) dedup'
  end.

(** One iteration of [for url in urls]: [None] when the loop goes on to the
    next URL, either at the end of the body or through [continue]. *)
Definition scrape_url (w : World) (url : pystr) : M (option (list Article)) :=
  try_except
    (driver_get w url;;
     wait_dom_ready w;;
     soup ← page_source w;
     raw ← collect_raw soup SELECTORS [];
     mret (dedup_loop raw ∅ []))
    is_WebDriverException
    (λ _, mret None).

Fixpoint scrape_urls (w : World) (urls : list pystr) : M (list Article) :=
  match urls with
  | [] => mret []
  | url :: rest =>
      r ← scrape_url w url;
      match r with
      | Some dedup => mret dedup
      | None => scrape_urls w rest
      end
  end.

Definition scrape_popular_articles (w : World) : M (list Article) :=
  scrape_urls w URLS.

(** ** derive_keywords_from_articles *)

(** The stop words 기자 뉴스 오늘 정부 시장 한국 속보 관련 대한. *)
Definition STOP : gset pystr :=
  list_to_set
    [ [44592; 51088]; [45684; 49828]; [50724; 45720]; [51221; 48512];
      [49884; 51109]; [54620; 44397]; [49549; 48372]; [44288; 47144];
      [45824; 54620] ]%N.

(** The characters the class [0-9A-Za-z가-힣\s] holds. *)
Definition is_kept_char (c : N) : bool :=
  ((48 <=? c) && (c <=? 57) || (65 <=? c) && (c <=? 90) ||
   (97 <=? c) && (c <=? 122) || (44032 <=? c) && (c <=? 55203))%N
  || is_space c.

(** [re.sub(r"[^0-9A-Za-z가-힣\s]", " ", s)] *)
Definition blank_others (s : pystr) : pystr :=
  map (λ c, if is_kept_char c then c else SPACE) s.

(** [str.split()]: the maximal runs of non-whitespace, in order.  [cur]
    is the run being read. *)
Fixpoint split_loop (s : pystr) (cur : pystr) : list pystr :=
  match s with
  | [] => match cur with [] => [] | _ => [cur] end
  | c :: r =>
      if is_space c
      then match cur with
           | [] => split_loop r []
           | _ => cur :: split_loop r []
           end
      else split_loop r (cur ++ [c])
  end.

Definition split (s : pystr) : list pystr := split_loop s [].

(** A [Counter] keeps its keys in insertion order. *)
Abbreviation Counter := (list (pystr * nat)).

(** [c[w] += 1] *)
Fixpoint counter_incr (c : Counter) (w : pystr) : Counter :=
  match c with
  | [] => [(w, 1)]
  | (k, n) :: r =>
      if decide (k = w) then (k, S n) :: r else (k, n) :: counter_incr r w
  end.

(** [Counter.most_common(n)] is [heapq.nlargest(n, items, key=count)],
    which the library documents as [sorted(items, key=count,
    reverse=True)[:n]]; [sorted] is stable, so items of equal count stay in
    insertion order. *)
Fixpoint insert_desc (x : pystr * nat) (l : Counter) : Counter :=
  match l with
  | [] => [x]
  | y :: r => if snd x <? snd y then y :: insert_desc x r else x :: l
  end.

Definition sorted_desc (c : Counter) : Counter := foldr insert_desc [] c.

Definition most_common (n : nat) (c : Counter) : Counter :=
  take n (sorted_desc c).

(** The inner loop [for w in words]. *)
Fixpoint count_words (words : list pystr) (c : Counter) : Counter :=
  match words with
  | [] => c
  | w0 :: rest =>
      let w := strip w0 in
      if (length w <? 2) || bool_decide (w ∈ STOP)
      then count_words rest c
      else count_words rest (counter_incr c w)
  end.

(** The outer loop [for a in articles]. *)
Fixpoint count_articles (articles : list Article) (c : Counter) : Counter :=
  match articles with
  | [] => c
  | a :: rest =>
      count_articles rest (count_words (split (blank_others (title a))) c)
  end.

Definition derive_keywords_from_articles (articles : list Article)
    : list pystr :=
  map fst (most_common 10 (count_articles articles [])).

(** ** collect *)

(** The values stored in the result dictionary. *)
Inductive value :=
  | VStr (s : pystr)
  | VStrList (l : list pystr)
  | VArticles (l : list Article).

(** A dictionary literal: its keys in the order written. *)
Abbreviation pydict := (list (string * value)).

(** "Chrome WebDriver 실행 실패: " *)
Definition MSG_DRIVER_FAILED : pystr :=
  [67; 104; 114; 111; 109; 101; 32; 87; 101; 98; 68; 114; 105; 118; 101;
   114; 32; 49892; 54665; 32; 49892; 54056; 58; 32]%N.

(** "Chrome 설치 또는 Selenium Manager 네트워크 접근 상태를 확인하세요." *)
Definition MSG_DRIVER_HINT : pystr :=
  [67; 104; 114; 111; 109; 101; 32; 49444; 52824; 32; 46608; 45716; 32; 83;
   101; 108; 101; 110; 105; 117; 109; 32; 77; 97; 110; 97; 103; 101; 114;
   32; 45348; 53944; 50892; 53356; 32; 51217; 44540; 32; 49345; 53468;
   47484; 32; 54869; 51064; 54616; 49464; 50836; 46]%N.

(** "실시간 검색어 원본 수집 실패로 기사 제목 기반 키워드로 대체했습니다." *)
Definition MSG_FALLBACK : pystr :=
  [49892; 49884; 44036; 32; 44160; 49353; 50612; 32; 50896; 48376; 32;
   49688; 51665; 32; 49892; 54056; 47196; 32; 44592; 49324; 32; 51228;
   47785; 32; 44592; 48152; 32; 53412; 50892; 46300; 47196; 32; 45824;
   52404; 54664; 49845; 45768; 45796; 46]%N.

(** "실시간 검색어를 생성하지 못했습니다." *)
Definition MSG_NO_KEYWORDS : pystr :=
  [49892; 49884; 44036; 32; 44160; 49353; 50612; 47484; 32; 49373; 49457;
   54616; 51648; 32; 47803; 54664; 49845; 45768; 45796; 46]%N.

(** "실시간 인기기사 수집에 실패했습니다." *)
Definition MSG_NO_ARTICLES : pystr :=
  [49892; 49884; 44036; 32; 51064; 44592; 44592; 49324; 32; 49688; 51665;
   50640; 32; 49892; 54056; 54664; 49845; 45768; 45796; 46]%N.

(** The dictionary returned when [build_driver] raised [e]. *)
Definition driver_failure_record (e : exn) : pydict :=
  [ ("keywords"%string, VStrList []);
    ("articles"%string, VArticles []);
    ("warnings"%string,
     VStrList [MSG_DRIVER_FAILED ++ str_exn e; MSG_DRIVER_HINT]) ].

(** [if not keywords: ...]: the keywords and the warnings after it. *)
Definition fallback_step (keywords : list pystr) (articles : list Article)
    : list pystr * list pystr :=
  match keywords with
  | [] =>
      match derive_keywords_from_articles articles with
      | [] => ([], [MSG_NO_KEYWORDS])
      | alt => (alt, [MSG_FALLBACK])
      end
  | _ => (keywords, [])
  end.

(** [if not articles: ...] *)
Definition articles_step (articles : list Article) (warnings : list pystr)
    : list pystr :=
  match articles with
  | [] => warnings ++ [MSG_NO_ARTICLES]
  | _ => warnings
  end.

(** Everything after [driver.quit()]. *)
Definition assemble (now : pystr) (keywords : list pystr)
    (articles : list Article) : pydict :=
  let '(keywords, warnings) := fallback_step keywords articles in
  let warnings := articles_step articles warnings in
  [ ("updatedAt"%string, VStr now);
    ("keywords"%string, VStrList (take 10 keywords));
    ("articles"%string, VArticles (take 10 articles));
    ("warnings"%string, VStrList warnings) ].

Definition collect (w : World) (headless : bool) : M pydict :=
  failed ← try_except
             (build_driver w headless;; mret None)
             is_WebDriverException
             (λ e, mret (Some (driver_failure_record e)));
  match failed with
  | Some record => mret record
  | None =>
      scraped ← try_finally
                  (keywords ← scrape_realtime_keywords w;
                   articles ← scrape_popular_articles w;
                   mret (keywords, articles))
                  (driver_quit w);
      now ← utc_now w;
      mret (assemble now scraped.1 scraped.2)
  end.

(** Reading the result dictionary. *)
Definition keys (d : pydict) : list string := map fst d.

Fixpoint get (d : pydict) (k : string) : option value :=
  match d with
  | [] => None
  | (k', v) :: r => if decide (k' = k) then Some v else get r k
  end.

Definition keywords_of (d : pydict) : list pystr :=
  match get d "keywords" with Some (VStrList l) => l | _ => [] end.

Definition articles_of (d : pydict) : list Article :=
  match get d "articles" with Some (VArticles l) => l | _ => [] end.

Definition warnings_of (d : pydict) : list pystr :=
  match get d "warnings" with Some (VStrList l) => l | _ => [] end.

(** ** print_text *)

(** "[실시간 검색어 TOP 10]" *)
Definition HEADER_KEYWORDS : pystr :=
  [91; 49892; 49884; 44036; 32; 44160; 49353; 50612; 32; 84; 79; 80; 32;
   49; 48; 93]%N.

(** A line feed and "[실시간 인기기사 TOP 10]" *)
Definition HEADER_ARTICLES : pystr :=
  [10; 91; 49892; 49884; 44036; 32; 51064; 44592; 44592; 49324; 32; 84; 79;
   80; 32; 49; 48; 93]%N.

(** A line feed and "[주의]" *)
Definition HEADER_CAUTION : pystr := [10; 91; 51452; 51032; 93]%N.

(** [str(i)] for a count [i]. *)
Definition decimal (i : nat) : pystr :=
  py (NilZero.string_of_uint (Nat.to_uint i)).

(** [for i, k in enumerate(keywords, i): print(f"{i}. {k}")]: the
    arguments of the calls of [print], in order. *)
Fixpoint print_keywords (i : nat) (keywords : list pystr) : list pystr :=
  match keywords with
  | [] => []
  | k :: rest => (decimal i ++ py ". " ++ k) :: print_keywords (S i) rest
  end.

Fixpoint print_articles (i : nat) (articles : list Article) : list pystr :=
  match articles with
  | [] => []
  | a :: rest =>
      (decimal i ++ py ". " ++ title a) :: (py "   " ++ href a)
      :: print_articles (S i) rest
  end.

(** [if data["warnings"]: ...] *)
Definition print_warnings (warnings : list pystr) : list pystr :=
  match warnings with
  | [] => []
  | _ => HEADER_CAUTION :: map (λ m, py "- " ++ m) warnings
  end.

(** How a call of [print_text] ends: all lines printed; a [KeyError] for
    a missing key after the lines printed so far; or a value under [key]
    of a shape [collect] never stores there, where the model stops. *)
Inductive printed :=
  | Printed (lines : list pystr)
  | KeyError (lines : list pystr) (key : string)
  | OtherShape (key : string).

Definition print_text (data : pydict) : printed :=
  let out := [HEADER_KEYWORDS] in
  match get data "keywords" with
  | None => KeyError out "keywords"
  | Some (VStrList keywords) =>
      let out := out ++ print_keywords 1 keywords ++ [HEADER_ARTICLES] in
      match get data "articles" with
      | None => KeyError out "articles"
      | Some (VArticles articles) =>
          let out := out ++ print_articles 1 articles in
          match get data "warnings" with
          | None => KeyError out "warnings"
          | Some (VStrList warnings) =>
              Printed (out ++ print_warnings warnings)
          | Some _ => OtherShape "warnings"
          end
      | Some _ => OtherShape "articles"
      end
  | Some _ => OtherShape "keywords"
  end.

(** ** Specification vocabulary *)

(** A list with every repetition of an earlier element dropped: the
    elements in the order of their first occurrence. *)
Fixpoint first_seen {A} `{EqDecision A} (l : list A) : list A :=
  match l with
  | [] => []
  | x :: r => x :: filter (λ y, y ≠ x) (first_seen r)
  end.

(** [a] stands before [b] in [l]. *)
Definition precedes {A} (l : list A) (a b : A) : Prop :=
  ∃ l1 l2 l3, l = l1 ++ a :: l2 ++ b :: l3.

(** *** Normalised text *)

(** No whitespace but single spaces: every whitespace character is a
    space and none follows another.  [after_space] tells that a space
    stands just before [s]. *)
Fixpoint collapsed (after_space : bool) (s : pystr) : bool :=
  match s with
  | [] => true
  | c :: r =>
      if is_space c
      then (c =? SPACE)%N && negb after_space && collapsed true r
      else collapsed false r
  end.

(** No whitespace anywhere. *)
Abbreviation no_space := (Forall (λ c, is_space c = false)).

(** No whitespace in front. *)
Definition starts_clean (s : pystr) : Prop :=
  match s with
  | [] => True
  | c :: _ => is_space c = false
  end.

(** Collapsed and trimmed. *)
Definition normal_text (s : pystr) : Prop :=
  collapsed false s = true ∧ starts_clean s ∧ starts_clean (reverse s).

(** What the text normaliser promises for [unique_top(values, limit)]: the
    first [limit] distinct non-empty normalised values, by first
    occurrence. *)
Definition unique_top_spec (values : list pystr) (limit : Z) : list pystr :=
  take (Z.to_nat limit)
       (first_seen (filter (λ t, t ≠ []) (map normalize_text values))).

(** *** The ranking pages *)

(** The entries one rendered page offers: the surviving matches of the
    selectors, selector by selector. *)
Definition page_raw (soup : Soup) : list Article :=
  concat (map (λ sel, omap candidate (select soup sel)) SELECTORS).

(** What loading [url] comes to: the first of [driver.get],
    [wait_dom_ready] and [driver.page_source] to raise decides. *)
Definition load_outcome (w : World) (url : pystr) : exn + Soup :=
  match get_result w url with
  | Some e => inl e
  | None =>
      match ready_result w url with
      | Some e => inl e
      | None => source_result w url
      end
  end.

(** The first ten distinct entries, when there are ten. *)
Definition top_ten (raw : list Article) : option (list Article) :=
  let distinct := first_seen raw in
  if 10 <=? length distinct then Some (take 10 distinct) else None.

(** The state after the calls [evs], the browser showing [url]. *)
Definition after (st : DriverState) (url : pystr) (evs : list event)
    : DriverState :=
  {| current := url; trace := trace st ++ evs |}.

(** The calls loading [url] makes, up to the first that raises. *)
Definition load_trace (w : World) (url : pystr) : list event :=
  match get_result w url with
  | Some _ => [EvGet url]
  | None =>
      match ready_result w url with
      | Some _ => [EvGet url; EvWaitDomReady]
      | None => [EvGet url; EvWaitDomReady; EvPageSource]
      end
  end.

(** The calls of an iteration whose page loads. *)
Definition full_trace (url : pystr) : list event :=
  [EvGet url; EvWaitDomReady; EvPageSource] ++ map EvSelect SELECTORS.

(** The calls one iteration over [url] makes. *)
Definition url_trace (w : World) (url : pystr) : list event :=
  load_trace w url ++
  match load_outcome w url with
  | inr _ => map EvSelect SELECTORS
  | inl _ => []
  end.

(** How one iteration over [url] ends. *)
Definition url_outcome (w : World) (url : pystr)
    : outcome (option (list Article)) :=
  match load_outcome w url with
  | inl e => if is_WebDriverException e then Return None else Raise e
  | inr soup => Return (top_ten (page_raw soup))
  end.

(** The iteration over [url] ends without a [return]: the page failed to
    load with an exception the [except] clause handles, or it offers
    fewer than ten distinct entries. *)
Definition skipped (w : World) (url : pystr) : Prop :=
  match load_outcome w url with
  | inl e => is_WebDriverException e = true
  | inr soup => length (first_seen (page_raw soup)) < 10
  end.

(** The entries gathered once the selectors [tried] have been applied. *)
Definition gathered (soup : Soup) (tried : list pystr) : list Article :=
  first_seen (concat (map (λ sel, omap candidate (select soup sel)) tried)).

(** Returning as soon as ten entries are gathered, with the remaining
    selectors left untried: whenever the selectors up to some point of the
    list already give ten entries on the first page, no later selector is
    queried during the run. *)
Definition leaves_selectors_untried (w : World) : Prop :=
  ∀ soup tried rest,
    load_outcome w URL_FIRST = inr soup →
    SELECTORS = tried ++ rest →
    10 ≤ length (gathered soup tried) →
    ∀ sel, sel ∈ rest →
      EvSelect sel ∉ trace (scrape_popular_articles w initial).2.

(** *** The fallback keywords *)

(** A token survives when it has at least two characters and is no stop
    word. *)
Definition survives (w : pystr) : Prop := 2 ≤ length w ∧ w ∉ STOP.

#[global] Instance survives_dec w : Decision (survives w).
Proof. unfold survives. apply _. Defined.

(** The letters, digits and Korean syllables. *)
Definition is_word_char (c : N) : bool :=
  ((48 <=? c) && (c <=? 57) || (65 <=? c) && (c <=? 90) ||
   (97 <=? c) && (c <=? 122) || (44032 <=? c) && (c <=? 55203))%N.

(** The surviving tokens of all titles, in reading order, when every
    character outside the class is replaced by a space. *)
Definition tokens_blanking (articles : list Article) : list pystr :=
  concat (map (λ a, filter survives (split (blank_others (title a))))
              articles).

(** The same when those characters are removed instead. *)
Definition tokens_removing (articles : list Article) : list pystr :=
  concat (map (λ a, filter survives
                      (split (filter (λ c, is_kept_char c = true) (title a))))
              articles).

(** How often [w] occurs among [ws]. *)
Definition frequency (ws : list pystr) (w : pystr) : nat :=
  length (filter (λ u, u = w) ws).

(** The distinct tokens in first-seen order, each with its frequency. *)
Definition tally (ws : list pystr) : Counter :=
  map (λ w, (w, frequency ws w)) (first_seen ws).

(** [a] is first encountered before [b]: at the first occurrence of [a]
    no [b] has been read yet. *)
Definition met_before (ws : list pystr) (a b : pystr) : Prop :=
  ∃ pre post, ws = pre ++ a :: post ∧ (a ∉ pre) ∧ (b ∉ pre) ∧ a ≠ b.

(** [a] ranks before [b]: it is more frequent, or as frequent and first
    encountered earlier. *)
Definition ranks_before (ws : list pystr) (a b : pystr) : Prop :=
  frequency ws b < frequency ws a
  ∨ (frequency ws a = frequency ws b ∧ met_before ws a b).

(** The ten most frequent tokens, ties in first-encountered order. *)
Definition keywords_by_frequency (ws : list pystr) : list pystr :=
  map fst (most_common 10 (tally ws)).

(** The order [most_common] leaves the items of [c] in: higher count
    first, and among equal counts the item that stands earlier in [c]. *)
Definition stable_before (c : Counter) (x y : pystr * nat) : Prop :=
  snd y < snd x ∨ (snd x = snd y ∧ precedes c x y).

(** *** The collector *)

(** What [scrape_realtime_keywords] returns or raises; the state it starts
    from plays no part. *)
Definition keywords_outcome (w : World) : outcome (list pystr) :=
  match load_outcome w TRENDS_URL with
  | inl e => if is_WebDriverException e then Return [] else Raise e
  | inr soup =>
      Return match tbody_rows soup with
             | None | Some [] => []
             | Some rows => unique_top (omap id rows) 10
             end
  end.

(** What [scrape_popular_articles] returns or raises. *)
Definition articles_outcome (w : World) : outcome (list Article) :=
  match url_outcome w URL_FIRST with
  | Raise e => Raise e
  | Return (Some r) => Return r
  | Return None =>
      match url_outcome w URL_SECOND with
      | Raise e => Raise e
      | Return (Some r) => Return r
      | Return None => Return []
      end
  end.

(** What [collect] returns or raises. *)
Definition collect_outcome (w : World) (headless : bool) : outcome pydict :=
  match build_result w headless with
  | Some e =>
      if is_WebDriverException e then Return (driver_failure_record e)
      else Raise e
  | None =>
      match quit_result w with
      | Some e => Raise e
      | None =>
          match keywords_outcome w with
          | Raise e => Raise e
          | Return keywords =>
              match articles_outcome w with
              | Raise e => Raise e
              | Return articles =>
                  Return (assemble (now_isoformat w) keywords articles)
              end
          end
      end
  end.

(** How many of the warnings are [m]. *)
Definition notices (m : pystr) (d : pydict) : nat :=
  length (filter (λ x, x = m) (warnings_of d)).

(** The fallback always taking effect: whenever the keyword scraper comes
    back empty and the article scraper brings at least one article, the
    keywords of the result are the derived ones and exactly one warning is
    the fallback notice. *)
Definition fallback_always_noticed (w : World) (headless : bool) : Prop :=
  ∀ st st' d articles,
    collect w headless st = (Return d, st') →
    keywords_outcome w = Return [] →
    articles_outcome w = Return articles →
    articles ≠ [] →
    keywords_of d = derive_keywords_from_articles articles
    ∧ notices MSG_FALLBACK d = 1.



(** ** Sample pages and runs *)

(** The character of the digit [i]. *)
Definition digit (i : nat) : N := (48 + N.of_nat i)%N.

(** Ten anchors "<mark> 0" ... "<mark> 9" linking to /article/0 ... /article/9. *)
Definition numbered_anchors (mark : pystr) : list Anchor :=
  map (λ i, {| a_text := mark ++ [SPACE; digit i];
               a_href := Some (py "/article/" ++ [digit i]) |})
      (seq 0 10).

(** A page on which the first selector alone matches [anchors]. *)
Definition page_with (rows : option (list (option pystr)))
    (anchors : list Anchor) : Soup :=
  {| tbody_rows := rows;
     select := λ sel,
       if decide (sel = py ".rankingnews_list .list_title") then anchors
       else [] |}.

(** A run in which every call succeeds and every URL shows [soup]. *)
Definition world_showing (soup : Soup) : World :=
  {| build_result := λ _, None;
     get_result := λ _, None;
     ready_result := λ _, None;
     source_result := λ _, inr soup;
     quit_result := None;
     now_isoformat := py "2024-05-01T00:00:00+00:00" |}.

(** Ten entries "news 0" ... "news 9", and no trends table. *)
Definition news_page : Soup := page_with None (numbered_anchors (py "news")).

Definition news_world : World := world_showing news_page.

(** What [scrape_popular_articles] returns on [news_world], the state it
    ends in, and the record [collect] builds. *)
Definition news_result : list Article :=
  take 10 (first_seen (page_raw news_page)).

Definition news_state : DriverState :=
  after initial URL_FIRST (full_trace URL_FIRST).

Definition news_record : pydict :=
  assemble (now_isoformat news_world) [] news_result.

(** Ten entries "!?!? 0" ... "!?!? 9": no title holds a token of two
    characters. *)
Definition quiet_page : Soup := page_with None (numbered_anchors (py "!?!?")).

Definition quiet_world : World := world_showing quiet_page.

(** A run in which every page loads and holds nothing. *)
Definition blank_world : World := world_showing (page_with None []).

(** The record [collect] builds on [blank_world]. *)
Definition blank_record : pydict :=
  assemble (now_isoformat blank_world) [] [].

(** A run in which the first ranking page is empty and the second shows
    [news_page]. *)
Definition world_second_only : World :=
  {| build_result := λ _, None;
     get_result := λ _, None;
     ready_result := λ _, None;
     source_result := λ url,
       if decide (url = URL_SECOND) then inr news_page
       else inr (page_with None []);
     quit_result := None;
     now_isoformat := py "2024-05-01T00:00:00+00:00" |}.

(** A run in which [build_driver] raises [e]. *)
Definition world_build_raising (e : exn) : World :=
  {| build_result := λ _, Some e;
     get_result := λ _, None;
     ready_result := λ _, None;
     source_result := λ _, inr news_page;
     quit_result := None;
     now_isoformat := py "2024-05-01T00:00:00+00:00" |}.

(** Chrome cannot be started. *)
Definition no_chrome : exn :=
  WebDriverException (py "Message: session not created").

(** [ChromeDriverManager().install()] cannot reach the download host: the
    exception it raises is no [WebDriverException]. *)
Definition offline : exn :=
  OtherException (py "Could not reach host. Are you offline?").


(** A run in which closing the browser fails. *)
Definition world_quit_raising : World :=
  {| build_result := λ _, None;
     get_result := λ _, None;
     ready_result := λ _, None;
     source_result := λ _, inr news_page;
     quit_result := Some (WebDriverException (py "Message: disconnected"));
     now_isoformat := py "2024-05-01T00:00:00+00:00" |}.

(** A trends page with the single row 오늘 날씨. *)
Definition weather_page : Soup :=
  page_with (Some [Some [50724; 45720; 32; 45216; 50472]%N]) [].

(** The article 속보 한국 경제 위기 심화. *)
Definition crisis_article : Article :=
  {| title := [49549; 48372; 32; 54620; 44397; 32; 44221; 51228; 32;
               50948; 44592; 32; 49900; 54868]%N;
     href := py "https://news.naver.com/article/1" |}.

(** A title on which blanking and removing differ: "ab-cd". *)
Definition hyphen_article : Article :=
  {| title := py "ab-cd"; href := py "https://news.naver.com/article/1" |}.

(** ** Vocabulary for the further properties *)

(** The characters of [s] that are no whitespace, in order. *)
Definition words_of (s : pystr) : pystr :=
  filter (λ c, is_space c = false) s.

(** An absolute URL, as [normalize_article_href] tests it. *)
Definition is_absolute (href : pystr) : bool :=
  startswith href (py "http://") || startswith href (py "https://").

(** Values with padding, a blank and a repetition. *)
Definition sample_values : list pystr :=
  [py "  a   b "; []; py "a b"; py "c"].


(** The browser process is gone: the HTTP client underneath Selenium
    raises an exception that is no [WebDriverException]. *)
Definition connection_lost : exn :=
  OtherException (py "MaxRetryError: connection refused").

(** A run in which the driver starts and no page source can be read. *)
Definition world_source_raising : World :=
  {| build_result := λ _, None;
     get_result := λ _, None;
     ready_result := λ _, None;
     source_result := λ _, inl connection_lost;
     quit_result := None;
     now_isoformat := py "2024-05-01T00:00:00+00:00" |}.


(** The calls [scrape_realtime_keywords] makes, up to the first that
    raises. *)
Definition keywords_trace (w : World) : list event :=
  match get_result w TRENDS_URL with
  | Some _ => [EvGet TRENDS_URL]
  | None =>
      match ready_result w TRENDS_URL with
      | Some _ => [EvGet TRENDS_URL; EvWaitDomReady]
      | None => [EvGet TRENDS_URL; EvWaitDomReady; EvSleep 5; EvPageSource]
      end
  end.

(** A call made on a page: neither starting nor closing the browser. *)
Definition page_event (ev : event) : Prop :=
  match ev with
  | EvBuildDriver _ | EvQuit => False
  | _ => True
  end.

(** The URLs a trace loads, in order. *)
Definition loads (evs : list event) : list pystr :=
  omap (λ ev, match ev with EvGet url => Some url | _ => None end) evs.

(** The calls [scrape_popular_articles] makes. *)
Definition articles_trace (w : World) : list event :=
  url_trace w URL_FIRST ++
  match url_outcome w URL_FIRST with
  | Return None => url_trace w URL_SECOND
  | _ => []
  end.

(** The calls made between the start of the driver and its end. *)
Definition scraping_trace (w : World) : list event :=
  keywords_trace w ++
  match keywords_outcome w with
  | Return _ => articles_trace w
  | Raise _ => []
  end.


(** A run whose trends page has the row 오늘 날씨, and the keywords
    scraped from it. *)
Definition weather_world : World := world_showing weather_page.

Definition weather_keywords : list pystr :=
  [[50724; 45720; 32; 45216; 50472]%N].


(** What [driver.quit()] raises in [world_quit_raising]. *)
Definition quit_failure : exn :=
  WebDriverException (py "Message: disconnected").


(** The record [collect] builds on [weather_world]: one keyword, no
    article. *)
Definition weather_record : pydict :=
  assemble (now_isoformat weather_world) weather_keywords [].

(** * Properties *)

(** ** Strings *)

Lemma startswith_spec (s p : pystr) :
  startswith s p = true ↔ ∃ r, s = p ++ r.
Proof.
  revert s; induction p as [|a p IH]; intros s; simpl.
  - split; [intros _; by exists s | done].
  - destruct s as [|b s].
    + split; [done | by intros [r Hr]].
    + rewrite andb_true_iff, N.eqb_eq, IH. split.
      * intros [-> [r ->]]. by exists r.
      * intros [r Hr]. simplify_eq. eauto.
Qed.

Lemma contains_spec (needle hay : pystr) :
  contains needle hay = true ↔ ∃ pre post, hay = pre ++ needle ++ post.
Proof.
  induction hay as [|c hay IH]; simpl.
  - rewrite orb_false_r, startswith_spec. split.
    + intros [r Hr]. by exists [], r.
    + intros [pre [post H]]. symmetry in H.
      apply app_eq_nil in H as [-> H]. exists post. by rewrite H.
  - rewrite orb_true_iff, startswith_spec, IH. split.
    + intros [[r Hr] | [pre [post Hr]]].
      * by exists [], r.
      * exists (c :: pre), post. by rewrite Hr.
    + intros [[|c' pre] [post H]].
      * left. by exists post.
      * right. simplify_eq/=. by exists pre, post.
Qed.

(** ** normalize_article_href *)

(** C9: [normalize_article_href] is idempotent on every string: those it
    returns unchanged (absolute), the three shapes it prefixes
    (protocol-relative, root-relative, bare) and the empty string. *)
Theorem normalize_article_href_idempotent (href : pystr) :
  normalize_article_href (normalize_article_href href)
  = normalize_article_href href.
Proof.
  destruct href as [|c r]; [reflexivity|].
  unfold normalize_article_href at 2 3.
  destruct (startswith (c :: r) (py "http://")
            || startswith (c :: r) (py "https://")) eqn:Habs.
  - unfold normalize_article_href. by rewrite Habs.
  - destruct (startswith (c :: r) (py "//")) eqn:Hrel.
    + apply startswith_spec in Hrel as [r' ->]. reflexivity.
    + destruct (startswith (c :: r) (py "/")); reflexivity.
Qed.

(** ** First-seen order *)

Section FirstSeen.
Context {A : Type} `{EqDecision A}.
Implicit Types l : list A.

Lemma first_seen_elem_of l x : x ∈ first_seen l ↔ x ∈ l.
Proof.
  induction l as [|y l IH]; simpl; [done|].
  rewrite !elem_of_cons, list_elem_of_filter, IH.
  destruct (decide (x = y)); naive_solver.
Qed.

Lemma first_seen_NoDup l : NoDup (first_seen l).
Proof.
  induction l as [|y l IH]; simpl; [constructor|].
  constructor.
  - rewrite list_elem_of_filter. naive_solver.
  - by apply NoDup_filter.
Qed.

Lemma filter_ne_fresh l x : x ∉ l → filter (λ y, y ≠ x) l = l.
Proof.
  induction l as [|y l IH]; [done|]. rewrite not_elem_of_cons.
  intros [Hne Hx]. rewrite filter_cons_True by done. by rewrite IH.
Qed.

Lemma first_seen_of_NoDup l : NoDup l → first_seen l = l.
Proof.
  induction 1 as [|x l Hx _ IH]; simpl; [done|].
  by rewrite IH, filter_ne_fresh.
Qed.

Lemma first_seen_sublist l : first_seen l `sublist_of` l.
Proof.
  induction l as [|y l IH]; simpl; [done|].
  apply sublist_skip. etrans; [apply sublist_filter | done].
Qed.

Lemma filter_all (P : A → Prop) `{∀ x, Decision (P x)} l :
  (∀ x, x ∈ l → P x) → filter P l = l.
Proof.
  induction l as [|y l IH]; intros HP; [done|].
  rewrite filter_cons_True by (apply HP; left).
  rewrite IH; [done|]. intros x Hx. apply HP. by right.
Qed.

Lemma first_seen_app l1 l2 :
  first_seen (l1 ++ l2)
  = first_seen l1 ++ filter (λ y, y ∉ l1) (first_seen l2).
Proof.
  induction l1 as [|x l1 IH]; simpl.
  - symmetry. apply filter_all. intros x _. apply not_elem_of_nil.
  - rewrite IH, filter_app, list_filter_filter. do 2 f_equal.
    apply list_filter_iff. intros y. rewrite not_elem_of_cons. tauto.
Qed.

(** An element already met changes nothing. *)
Lemma first_seen_app_seen l1 l2 x :
  x ∈ l1 → first_seen (l1 ++ x :: l2) = first_seen (l1 ++ l2).
Proof.
  intros Hx. rewrite !first_seen_app. f_equal. simpl.
  rewrite filter_cons_False by tauto.
  rewrite list_filter_filter. apply list_filter_iff.
  intros y. split; [tauto|]. intros Hy. split; [done|]. by intros ->.
Qed.

(** A duplicate-free prefix of at least [n] elements is what [take n]
    keeps. *)
Lemma take_first_seen_prefix l1 l2 n :
  NoDup l1 → n ≤ length l1 →
  take n (first_seen (l1 ++ l2)) = take n l1.
Proof.
  intros Hnd Hn. rewrite first_seen_app, first_seen_of_NoDup by done.
  by rewrite take_app_le.
Qed.
End FirstSeen.

Lemma take_first_seen_elem_of {A} `{EqDecision A} (l : list A) (n : nat) x :
  x ∈ take n (first_seen l) → x ∈ l.
Proof.
  intros Hx. apply first_seen_elem_of.
  eapply elem_of_sublist; [done | apply sublist_take].
Qed.

Lemma take_first_seen_NoDup {A} `{EqDecision A} (l : list A) (n : nat) :
  NoDup (take n (first_seen l)).
Proof.
  eapply sublist_NoDup; [apply first_seen_NoDup | apply sublist_take].
Qed.

(** ** Text normalisation *)

Lemma collapse_ws_collapsed (b : bool) (s : pystr) :
  collapsed b (collapse_ws b s) = true.
Proof.
  revert b. induction s as [|c r IH]; intros b; simpl; [done|].
  destruct (is_space c) eqn:Hc.
  - destruct b; [apply IH|]. simpl. by rewrite IH.
  - simpl. by rewrite Hc.
Qed.

Lemma collapse_ws_fixed (b : bool) (s : pystr) :
  collapsed b s = true → collapse_ws b s = s.
Proof.
  revert b. induction s as [|c r IH]; intros b; simpl; [done|].
  destruct (is_space c).
  - intros [[->%N.eqb_eq Hb%negb_true_iff]%andb_true_iff Hr]%andb_true_iff.
    subst b. by rewrite IH.
  - intros Hr. by rewrite IH.
Qed.

Lemma collapsed_weaken (s : pystr) :
  collapsed true s = true → collapsed false s = true.
Proof.
  destruct s as [|c r]; simpl; [done|]. destruct (is_space c); [|done].
  by rewrite andb_false_r.
Qed.

Lemma collapsed_lstrip (s : pystr) :
  collapsed false s = true → collapsed false (lstrip s) = true.
Proof.
  induction s as [|c r IH]; simpl; [done|].
  destruct (is_space c) eqn:Hc; [|by simpl; rewrite Hc].
  intros [_ Hr]%andb_true_iff. by apply IH, collapsed_weaken.
Qed.

Lemma collapsed_prefix (b : bool) (p q : pystr) :
  collapsed b (p ++ q) = true → collapsed b p = true.
Proof.
  revert b. induction p as [|c r IH]; intros b; simpl; [done|].
  destruct (is_space c); [|apply IH].
  intros [Hc Hr]%andb_true_iff. rewrite Hc. simpl. by apply IH in Hr.
Qed.

Lemma lstrip_suffix (s : pystr) : ∃ ws, s = ws ++ lstrip s.
Proof.
  induction s as [|c r [ws IH]]; simpl; [by exists []|].
  destruct (is_space c); [|by exists []].
  exists (c :: ws). simpl. by rewrite <- IH.
Qed.

Lemma rstrip_prefix (s : pystr) : ∃ ws, s = rstrip s ++ ws.
Proof.
  destruct (lstrip_suffix (reverse s)) as [ws Hws]. exists (reverse ws).
  unfold rstrip. rewrite <- reverse_app, <- Hws. by rewrite reverse_involutive.
Qed.

Lemma collapsed_rstrip (s : pystr) :
  collapsed false s = true → collapsed false (rstrip s) = true.
Proof.
  destruct (rstrip_prefix s) as [ws Hws]. rewrite Hws at 1.
  apply collapsed_prefix.
Qed.

Lemma lstrip_starts_clean (s : pystr) : starts_clean (lstrip s).
Proof.
  induction s as [|c r IH]; simpl; [done|].
  by destruct (is_space c) eqn:Hc.
Qed.

Lemma lstrip_clean (s : pystr) : starts_clean s → lstrip s = s.
Proof. destruct s as [|c r]; simpl; [done|]. by intros ->. Qed.

Lemma lstrip_snoc (s : pystr) (c : N) :
  is_space c = false → lstrip (s ++ [c]) = lstrip s ++ [c].
Proof.
  intros Hc. induction s as [|x r IH]; simpl; [by rewrite Hc|].
  by destruct (is_space x).
Qed.

Lemma rstrip_starts_clean (s : pystr) : starts_clean s → starts_clean (rstrip s).
Proof.
  destruct s as [|c r]; [done|]. simpl. intros Hc. unfold rstrip.
  rewrite reverse_cons, lstrip_snoc, reverse_app by done. simpl. done.
Qed.

Lemma rstrip_ends_clean (s : pystr) : starts_clean (reverse (rstrip s)).
Proof.
  unfold rstrip. rewrite reverse_involutive. apply lstrip_starts_clean.
Qed.

Lemma strip_normal (s : pystr) : normal_text s → strip s = s.
Proof.
  intros (_ & Hhead & Hlast). unfold strip, rstrip.
  rewrite (lstrip_clean s), lstrip_clean by done. apply reverse_involutive.
Qed.

(** What [normalize_text] returns is collapsed and trimmed. *)
Lemma normalize_text_normal (s : pystr) : normal_text (normalize_text s).
Proof.
  unfold normalize_text, strip. split_and!.
  - apply collapsed_rstrip, collapsed_lstrip, collapse_ws_collapsed.
  - apply rstrip_starts_clean, lstrip_starts_clean.
  - apply rstrip_ends_clean.
Qed.

(** Collapsed and trimmed text is left as it is. *)
Lemma normalize_text_fixed (s : pystr) : normal_text s → normalize_text s = s.
Proof.
  intros Hs. unfold normalize_text.
  rewrite collapse_ws_fixed by apply Hs. by apply strip_normal.
Qed.

Lemma normalize_text_idempotent (s : pystr) :
  normalize_text (normalize_text s) = normalize_text s.
Proof. apply normalize_text_fixed, normalize_text_normal. Qed.

(** ** unique_top *)

Lemma unique_top_loop_spec (values : list pystr) (limit : Z)
    (seen : gset pystr) (out : list pystr) :
  NoDup out →
  (∀ t, t ∈ seen ↔ t ∈ out) →
  (Z.of_nat (length out) < limit)%Z →
  unique_top_loop values limit seen out
  = take (Z.to_nat limit)
      (first_seen (out ++ filter (λ t, t ≠ []) (map normalize_text values))).
Proof.
  revert seen out.
  induction values as [|v rest IH]; intros seen out Hnd Hseen Hlen; simpl.
  - rewrite app_nil_r, first_seen_of_NoDup by done.
    rewrite take_ge; [done | lia].
  - destruct (decide (normalize_text v = [])) as [Hempty | Hempty].
    { rewrite bool_decide_eq_true_2 by done. simpl.
      rewrite filter_cons_False by tauto. by apply IH. }
    rewrite (bool_decide_eq_false_2 _ Hempty). simpl.
    rewrite filter_cons_True by done.
    destruct (decide (normalize_text v ∈ seen)) as [Hin | Hin].
    { rewrite bool_decide_eq_true_2 by done.
      rewrite first_seen_app_seen by (by apply Hseen). by apply IH. }
    rewrite (bool_decide_eq_false_2 _ Hin).
    assert (NoDup (out ++ [normalize_text v])) as Hnd'.
    { apply NoDup_app. split_and!; [done | | apply NoDup_singleton].
      intros x Hx ->%list_elem_of_singleton. by apply Hin, Hseen. }
    set (t := normalize_text v) in *.
    set (later := filter _ (map _ rest)).
    replace (out ++ t :: later) with ((out ++ [t]) ++ later)
      by (by rewrite <- (assoc_L (++))).
    destruct (limit <=? _)%Z eqn:Hfull.
    + apply Z.leb_le in Hfull. rewrite length_app in Hfull. simpl in Hfull.
      rewrite take_first_seen_prefix; [ | done | rewrite length_app; simpl; lia ].

      rewrite take_ge; [done|]. rewrite length_app. simpl. lia.
    + apply Z.leb_gt in Hfull. apply IH; [done | | done].
      intros u. rewrite elem_of_union, elem_of_singleton, elem_of_app,
        list_elem_of_singleton, Hseen. done.
Qed.

(** For a limit of at least one, [unique_top] is its specification. *)
Lemma unique_top_refines (values : list pystr) (limit : Z) :
  (1 ≤ limit)%Z → unique_top values limit = unique_top_spec values limit.
Proof.
  intros Hlim. unfold unique_top, unique_top_spec.
  rewrite unique_top_loop_spec; [done | constructor | set_solver | simpl; lia].
Qed.

(** X4: with a limit below one the loop still stops only after its first
    append: the result is the first non-empty normalised value alone. *)
Lemma unique_top_nonpositive (values : list pystr) (limit : Z) :
  (limit ≤ 0)%Z →
  unique_top values limit
  = take 1 (first_seen (filter (λ t, t ≠ []) (map normalize_text values))).
Proof.
  intros Hlim. unfold unique_top.
  induction values as [|v rest IH]; [done|]. cbn [unique_top_loop map].
  destruct (decide (normalize_text v = [])) as [Hempty | Hempty].
  - rewrite bool_decide_eq_true_2 by done. simpl.
    by rewrite filter_cons_False by tauto.
  - rewrite (bool_decide_eq_false_2 _ Hempty).
    rewrite bool_decide_eq_false_2 by set_solver. simpl.
    rewrite filter_cons_True by done.
    by rewrite (proj2 (Z.leb_le _ _)) by lia.
Qed.

(** X3: for a limit of at least one: at most [limit] values, pairwise
    distinct, each non-empty, collapsed and trimmed and the normal form of
    an input value, in the order of first occurrence. *)
Lemma unique_top_properties (values : list pystr) (limit : Z) :
  (1 ≤ limit)%Z →
  (Z.of_nat (length (unique_top values limit)) ≤ limit)%Z
  ∧ NoDup (unique_top values limit)
  ∧ (∀ t, t ∈ unique_top values limit →
       t ≠ [] ∧ normal_text t ∧ normalize_text t = t
       ∧ ∃ v, v ∈ values ∧ t = normalize_text v)
  ∧ unique_top values limit = unique_top_spec values limit.
Proof.
  intros Hlim. rewrite unique_top_refines by done. unfold unique_top_spec.
  split_and!; [ | apply take_first_seen_NoDup | | done].
  - rewrite length_take. lia.
  - intros t [Hne Ht]%take_first_seen_elem_of%list_elem_of_filter.
    apply list_elem_of_fmap in Ht as [v [-> Hv]].
    split_and!; [done | apply normalize_text_normal
                | apply normalize_text_idempotent | by exists v].
Qed.

(** C3 at the failing input: with limit 0 the one-element list ["a"] comes
    back whole, one element more than the limit allows. *)
Theorem unique_top_limit_zero :
  unique_top [py "a"] 0 = [py "a"]
  ∧ ¬ (Z.of_nat (length (unique_top [py "a"] 0)) ≤ 0)%Z.
Proof. split; [by vm_compute | by vm_compute]. Qed.

(** ** scrape_popular_articles *)

Lemma key_of_inj (a b : Article) : key_of a = key_of b → a = b.
Proof. destruct a, b. unfold key_of. simpl. by intros [= -> ->]. Qed.

Lemma dedup_loop_spec (raw : list Article) (seen : gset (pystr * pystr))
    (dedup : list Article) :
  NoDup dedup →
  (∀ a, key_of a ∈ seen ↔ a ∈ dedup) →
  length dedup < 10 →
  dedup_loop raw seen dedup = top_ten (dedup ++ raw).
Proof.
  revert seen dedup.
  induction raw as [|item rest IH]; intros seen dedup Hnd Hseen Hlen;
    cbn [dedup_loop].
  - unfold top_ten. rewrite app_nil_r, first_seen_of_NoDup by done.
    by rewrite (proj2 (Nat.leb_gt _ _)).
  - destruct (decide (key_of item ∈ seen)) as [Hin | Hin].
    { rewrite bool_decide_eq_true_2 by done. rewrite IH by done.
      unfold top_ten. by rewrite first_seen_app_seen by (by apply Hseen). }
    rewrite (bool_decide_eq_false_2 _ Hin).
    assert (NoDup (dedup ++ [item])) as Hnd'.
    { apply NoDup_app. split_and!; [done | | apply NoDup_singleton].
      intros x Hx ->%list_elem_of_singleton. by apply Hin, Hseen. }
    replace (dedup ++ item :: rest) with ((dedup ++ [item]) ++ rest)
      by (by rewrite <- (assoc_L (++))).
    destruct (10 <=? length (dedup ++ [item])) eqn:Hfull.
    + apply Nat.leb_le in Hfull.
      assert (length (dedup ++ [item]) = 10) as Hten
        by (rewrite length_app in *; simpl in *; lia).
      unfold top_ten.
      rewrite take_first_seen_prefix by (done || lia).
      rewrite first_seen_app, first_seen_of_NoDup, length_app, Hten by done.
      simpl. by rewrite take_ge by lia.
    + apply Nat.leb_gt in Hfull. apply IH; [done | | done].
      intros a. rewrite elem_of_union, elem_of_singleton, elem_of_app,
        list_elem_of_singleton, Hseen.
      split; [intros [?|?%key_of_inj]; auto | intros [?| ->]; auto].
Qed.

Lemma top_ten_Some (raw r : list Article) :
  top_ten raw = Some r →
  r = take 10 (first_seen raw) ∧ length r = 10.
Proof.
  unfold top_ten. destruct (10 <=? _) eqn:H; [|done].
  apply Nat.leb_le in H. intros [= <-]. split; [done|].
  rewrite length_take. lia.
Qed.

Lemma after_nil (st : DriverState) : after st (current st) [] = st.
Proof. destruct st. unfold after. simpl. by rewrite app_nil_r. Qed.

Lemma after_after (st : DriverState) (u1 u2 : pystr) (e1 e2 : list event) :
  after (after st u1 e1) u2 e2 = after st u2 (e1 ++ e2).
Proof. unfold after. simpl. by rewrite (assoc_L (++)). Qed.

Lemma collect_raw_run (soup : Soup) (sels : list pystr) (raw : list Article)
    (st : DriverState) :
  collect_raw soup sels raw st
  = (Return (raw ++ concat (map (λ sel, omap candidate (select soup sel)) sels)),
     after st (current st) (map EvSelect sels)).
Proof.
  revert raw st. induction sels as [|sel rest IH]; intros raw st; simpl.
  - by rewrite app_nil_r, after_nil.
  - unfold mbind, M_bind, soup_select, emit, mret, M_ret. simpl.
    rewrite IH. unfold after. simpl.
    by rewrite <- !(assoc_L (++)).
Qed.

Lemma scrape_url_run (w : World) (url : pystr) (st : DriverState) :
  scrape_url w url st = (url_outcome w url, after st url (url_trace w url)).
Proof.
  unfold scrape_url, url_outcome, url_trace, load_outcome, load_trace, page_raw.
  generalize SELECTORS. intros sels.
  unfold try_except, driver_get, wait_dom_ready, page_source, navigate,
    current_url, raise_if, raise, emit, mbind, M_bind, mret, M_ret, after.
  simpl.
  destruct (get_result w url) as [e|]; simpl.
  { by destruct (is_WebDriverException e). }
  destruct (ready_result w url) as [e|]; simpl.
  { destruct (is_WebDriverException e); by rewrite <- !(assoc_L (++)). }
  destruct (source_result w url) as [e|soup]; simpl.
  { destruct (is_WebDriverException e); by rewrite <- !(assoc_L (++)). }
  rewrite collect_raw_run. simpl.
  rewrite dedup_loop_spec; [ | apply NoDup_nil_2 | set_solver | simpl; lia ].
  unfold after. simpl. by rewrite <- !(assoc_L (++)).
Qed.

Lemma url_outcome_ten (w : World) (url : pystr) (soup : Soup) :
  load_outcome w url = inr soup →
  10 ≤ length (first_seen (page_raw soup)) →
  url_outcome w url = Return (Some (take 10 (first_seen (page_raw soup))))
  ∧ url_trace w url = full_trace url.
Proof.
  intros Hload Hten. unfold url_outcome, url_trace, load_trace. rewrite Hload.
  unfold top_ten. rewrite (proj2 (Nat.leb_le _ _)) by done. split; [done|].
  unfold load_outcome in Hload.
  destruct (get_result w url); [done|]. by destruct (ready_result w url).
Qed.

Lemma url_outcome_skipped (w : World) (url : pystr) :
  skipped w url → url_outcome w url = Return None.
Proof.
  unfold skipped, url_outcome, top_ten.
  destruct (load_outcome w url) as [e|soup].
  - by intros ->.
  - intros Hlt. by rewrite (proj2 (Nat.leb_gt _ _)).
Qed.

Lemma url_outcome_Some (w : World) (url : pystr) (r : list Article) :
  url_outcome w url = Return (Some r) →
  ∃ soup, load_outcome w url = inr soup
          ∧ 10 ≤ length (first_seen (page_raw soup))
          ∧ r = take 10 (first_seen (page_raw soup)).
Proof.
  unfold url_outcome, top_ten. destruct (load_outcome w url) as [e|soup].
  - by destruct (is_WebDriverException e).
  - destruct (10 <=? _) eqn:Hten; [|done]. apply Nat.leb_le in Hten.
    intros [= <-]. by exists soup.
Qed.

Lemma scrape_urls_cons (w : World) (url : pystr) (rest : list pystr)
    (st : DriverState) :
  scrape_urls w (url :: rest) st
  = match url_outcome w url with
    | Raise e => (Raise e, after st url (url_trace w url))
    | Return (Some r) => (Return r, after st url (url_trace w url))
    | Return None => scrape_urls w rest (after st url (url_trace w url))
    end.
Proof.
  cbn [scrape_urls]. unfold mbind, M_bind. rewrite scrape_url_run.
  by destruct (url_outcome w url) as [[r|]|e].
Qed.

Lemma scrape_urls_returns (w : World) (urls : list pystr)
    (st st' : DriverState) (r : list Article) :
  scrape_urls w urls st = (Return r, st') →
  r = [] ∨ ∃ url, url ∈ urls ∧ url_outcome w url = Return (Some r).
Proof.
  revert st. induction urls as [|url rest IH]; intros st.
  - intros [= <- _]. by left.
  - rewrite scrape_urls_cons.
    destruct (url_outcome w url) as [[r'|]|e] eqn:Hout.
    + intros [= <- _]. right. exists url. split; [left | done].
    + intros [?|[u [Hu Ho]]]%IH; [by left | right].
      exists u. split; [by right | done].
    + done.
Qed.

Lemma candidate_valid (a : Anchor) (item : Article) :
  candidate a = Some item →
  4 ≤ length (title item) ∧ contains ARTICLE_MARK (href item) = true.
Proof.
  unfold candidate.
  destruct (length (normalize_text (a_text a)) <? 4) eqn:Hlen; [done|].
  destruct (contains ARTICLE_MARK _) eqn:Hmark; [|done].
  intros [= <-]. simpl. apply Nat.ltb_ge in Hlen. done.
Qed.

Lemma elem_of_concat {A} (ls : list (list A)) (x : A) :
  x ∈ concat ls ↔ ∃ l, l ∈ ls ∧ x ∈ l.
Proof.
  induction ls as [|l ls IH]; simpl.
  - split; [by intros ?%elem_of_nil | by intros [l [?%elem_of_nil _]]].
  - rewrite elem_of_app, IH. split.
    + intros [Hx | [l' [Hl' Hx]]].
      * exists l. split; [left | done].
      * exists l'. split; [by right | done].
    + intros [l' [[-> | Hl']%elem_of_cons Hx]]; [by left | right; eauto].
Qed.

Lemma page_raw_valid (soup : Soup) (item : Article) :
  item ∈ page_raw soup →
  4 ≤ length (title item) ∧ contains ARTICLE_MARK (href item) = true.
Proof.
  unfold page_raw. intros [l [Hl Hitem]]%elem_of_concat.
  apply list_elem_of_fmap in Hl as [sel [-> _]].
  apply list_elem_of_omap in Hitem as [a [_ Ha]].
  by apply candidate_valid in Ha.
Qed.

(** C10: [scrape_popular_articles] returns the empty list or exactly ten
    entries, and ten only from a URL whose page offers at least ten
    distinct entries: a page with fewer contributes nothing. *)
Theorem scrape_popular_articles_ten_or_none (w : World)
    (st st' : DriverState) (r : list Article) :
  scrape_popular_articles w st = (Return r, st') →
  (r = [] ∨
   length r = 10 ∧
   ∃ url soup, url ∈ URLS ∧ load_outcome w url = inr soup
               ∧ 10 ≤ length (first_seen (page_raw soup))
               ∧ r = take 10 (first_seen (page_raw soup)))
  ∧ ((∀ url soup, url ∈ URLS → load_outcome w url = inr soup →
        length (first_seen (page_raw soup)) < 10) → r = []).
Proof.
  intros Hrun. apply scrape_urls_returns in Hrun as [-> | [url [Hurl Hout]]].
  { split; [by left | done]. }
  apply url_outcome_Some in Hout as [soup [Hload [Hten ->]]]. split.
  - right. split; [rewrite length_take; lia | by exists url, soup].
  - intros Hfew. specialize (Hfew url soup Hurl Hload). lia.
Qed.

(** C1: a list returned by [scrape_popular_articles] has at most ten
    entries; every entry has a title of at least four characters and an
    href in which "/article/" occurs; the entries are pairwise distinct as
    (title, href) pairs; and they stand in the order in which one page
    first offered them. *)
Theorem scrape_popular_articles_entries (w : World)
    (st st' : DriverState) (r : list Article) :
  scrape_popular_articles w st = (Return r, st') →
  length r ≤ 10
  ∧ (∀ item, item ∈ r →
       4 ≤ length (title item)
       ∧ ∃ pre post, href item = pre ++ ARTICLE_MARK ++ post)
  ∧ NoDup (map key_of r)
  ∧ (r = [] ∨
     ∃ url soup, url ∈ URLS ∧ load_outcome w url = inr soup
                 ∧ r = take 10 (first_seen (page_raw soup))).
Proof.
  intros Hrun. apply scrape_urls_returns in Hrun as [-> | [url [Hurl Hout]]].
  { split_and!; [simpl; lia | by intros ? ?%elem_of_nil | constructor | by left]. }
  apply url_outcome_Some in Hout as [soup [Hload [Hten ->]]]. split_and!.
  - rewrite length_take. lia.
  - intros item Hitem%take_first_seen_elem_of%page_raw_valid.
    destruct Hitem as [Hlen Hmark]. split; [done|]. by apply contains_spec.
  - apply NoDup_fmap_2; [intros a b; apply key_of_inj|].
    apply take_first_seen_NoDup.
  - right. by exists url, soup.
Qed.

Lemma scrape_popular_articles_run (w : World) (st : DriverState) :
  scrape_popular_articles w st
  = match url_outcome w URL_FIRST with
    | Raise e => (Raise e, after st URL_FIRST (url_trace w URL_FIRST))
    | Return (Some r) => (Return r, after st URL_FIRST (url_trace w URL_FIRST))
    | Return None =>
        let evs := url_trace w URL_FIRST ++ url_trace w URL_SECOND in
        match url_outcome w URL_SECOND with
        | Raise e => (Raise e, after st URL_SECOND evs)
        | Return (Some r) => (Return r, after st URL_SECOND evs)
        | Return None => (Return [], after st URL_SECOND evs)
        end
    end.
Proof.
  unfold scrape_popular_articles, URLS. rewrite scrape_urls_cons.
  destruct (url_outcome w URL_FIRST) as [[r|]|e]; [done | | done].
  rewrite scrape_urls_cons. cbn [scrape_urls].
  destruct (url_outcome w URL_SECOND) as [[r|]|e]; by rewrite after_after.
Qed.

(** C2, as worded, fails: on a page whose first selector alone matches ten
    distinct entries the run still queries the four selectors after it. *)
Lemma remaining_selectors_are_tried : ¬ leaves_selectors_untried news_world.
Proof.
  intros Hclaim.
  apply (Hclaim news_page [py ".rankingnews_list .list_title"]
           (drop 1 SELECTORS) eq_refl eq_refl (Nat.le_refl 10)
           (py ".rankingnews_box li a")).
  - vm_compute. do 3 right. left.
  - vm_compute. do 7 right. left.
Qed.

(** C2, amended: each URL is handled on its own.  When its page loads, all
    five selectors are queried and their surviving matches gathered in
    first-seen order without repetition; if that gives at least ten entries
    the first ten are returned at once and the remaining URL is never
    loaded.  A second URL is reached only when the first was skipped, and
    then the result is made of the second page's entries alone.  When both
    are skipped (in particular when neither yields any entry) the result is
    the empty list. *)
Theorem scrape_popular_articles_per_url (w : World) (st : DriverState) :
  (∀ soup,
     load_outcome w URL_FIRST = inr soup →
     10 ≤ length (first_seen (page_raw soup)) →
     scrape_popular_articles w st
     = (Return (take 10 (first_seen (page_raw soup))),
        after st URL_FIRST (full_trace URL_FIRST)))
  ∧ (∀ soup,
       skipped w URL_FIRST →
       load_outcome w URL_SECOND = inr soup →
       10 ≤ length (first_seen (page_raw soup)) →
       scrape_popular_articles w st
       = (Return (take 10 (first_seen (page_raw soup))),
          after st URL_SECOND (url_trace w URL_FIRST ++ full_trace URL_SECOND)))
  ∧ (skipped w URL_FIRST → skipped w URL_SECOND →
     (scrape_popular_articles w st).1 = Return []).
Proof.
  rewrite scrape_popular_articles_run. split_and!.
  - intros soup Hload Hten.
    destruct (url_outcome_ten w URL_FIRST soup Hload Hten) as [-> ->]. done.
  - intros soup Hskip Hload Hten. rewrite (url_outcome_skipped _ _ Hskip).
    destruct (url_outcome_ten w URL_SECOND soup Hload Hten) as [-> ->]. done.
  - intros Hskip1 Hskip2.
    by rewrite (url_outcome_skipped _ _ Hskip1), (url_outcome_skipped _ _ Hskip2).
Qed.

(** ** derive_keywords_from_articles *)

Lemma lstrip_no_space (w : pystr) : no_space w → lstrip w = w.
Proof. destruct 1 as [|c r Hc _]; simpl; [done | by rewrite Hc]. Qed.

Lemma strip_no_space (w : pystr) : no_space w → strip w = w.
Proof.
  intros Hw. unfold strip, rstrip. rewrite (lstrip_no_space w) by done.
  rewrite lstrip_no_space by (by apply Forall_reverse).
  apply reverse_involutive.
Qed.

Lemma split_loop_tokens (P : N → Prop) (s cur : pystr) (w : pystr) :
  Forall P s → Forall P cur → no_space cur →
  w ∈ split_loop s cur → w ≠ [] ∧ no_space w ∧ Forall P w.
Proof.
  revert cur. induction s as [|c r IH]; intros cur Hs Hcur Hns; simpl.
  - destruct cur; [by intros ?%elem_of_nil|].
    by intros ->%list_elem_of_singleton.
  - apply Forall_cons in Hs as [Hc Hr].
    destruct (is_space c) eqn:Hsp.
    + destruct cur as [|c' cur'].
      * apply IH; by try constructor.
      * intros [-> | Hw]%elem_of_cons; [done|].
        revert Hw. apply IH; by try constructor.
    + apply IH; [done | |]; apply Forall_app; split; try done;
        by repeat constructor.
Qed.

Lemma blank_others_kept (s : pystr) :
  Forall (λ c, is_kept_char c = true) (blank_others s).
Proof.
  unfold blank_others. apply Forall_fmap, Forall_forall. intros c _. simpl.
  by destruct (is_kept_char c) eqn:Hc.
Qed.

Lemma word_char_iff (c : N) :
  is_word_char c = true ↔ is_kept_char c = true ∧ is_space c = false.
Proof.
  unfold is_kept_char. fold (is_word_char c).
  destruct (is_space c) eqn:Hsp; [|rewrite orb_false_r; naive_solver].
  split; [|naive_solver]. intros Hw. exfalso. revert Hsp Hw.
  unfold is_space, is_word_char.
  rewrite !orb_true_iff, !andb_true_iff, !N.leb_le, !N.eqb_eq. lia.
Qed.

(** The tokens of a title are non-empty runs of letters, digits and
    syllables. *)
Lemma title_tokens_words (s w : pystr) :
  w ∈ split (blank_others s) →
  w ≠ [] ∧ Forall (λ c, is_word_char c = true) w.
Proof.
  intros Hw.
  apply (split_loop_tokens (λ c, is_kept_char c = true)) in Hw
    as [Hne [Hns Hkept]];
    [ | apply blank_others_kept | constructor | constructor ].
  split; [done|]. rewrite Forall_forall in *. intros c Hc.
  apply word_char_iff. auto.
Qed.

Lemma count_words_spec (words : list pystr) (c : Counter) :
  Forall no_space words →
  count_words words c = foldl counter_incr c (filter survives words).
Proof.
  revert c. induction words as [|w rest IH]; intros c Hns; [done|].
  apply Forall_cons in Hns as [Hw Hrest]. cbn [count_words].
  rewrite (strip_no_space w) by done.
  destruct (decide (survives w)) as [Hs | Hs].
  - rewrite filter_cons_True by done. destruct Hs as [Hlen Hstop].
    rewrite (proj2 (Nat.ltb_ge _ _)) by done.
    rewrite bool_decide_eq_false_2 by done. simpl. by apply IH.
  - rewrite filter_cons_False by done.
    replace (_ || _) with true; [by apply IH|].
    symmetry. apply orb_true_iff.
    destruct (length w <? 2) eqn:Hlen; [by left | right].
    apply bool_decide_eq_true. apply Nat.ltb_ge in Hlen.
    destruct (decide (w ∈ STOP)); [done|]. by destruct Hs.
Qed.

Lemma split_no_space (s : pystr) : Forall no_space (split s).
Proof.
  apply Forall_forall. intros w Hw.
  apply (split_loop_tokens (λ _, True)) in Hw as [_ [Hns _]];
    [done | by apply Forall_true | constructor | constructor].
Qed.

Lemma count_articles_spec (articles : list Article) (c : Counter) :
  count_articles articles c = foldl counter_incr c (tokens_blanking articles).
Proof.
  revert c. induction articles as [|a rest IH]; intros c; [done|].
  cbn [count_articles]. rewrite IH, count_words_spec by apply split_no_space.
  unfold tokens_blanking. simpl. by rewrite foldl_app.
Qed.

Lemma frequency_snoc (ws : list pystr) (w u : pystr) :
  frequency (ws ++ [w]) u
  = if decide (w = u) then S (frequency ws u) else frequency ws u.
Proof.
  unfold frequency. rewrite filter_app, length_app.
  destruct (decide (w = u)).
  - rewrite (filter_cons_True _ w) by done. simpl. lia.
  - rewrite (filter_cons_False _ w) by done. simpl. lia.
Qed.

Lemma frequency_absent (ws : list pystr) (w : pystr) :
  w ∉ ws → frequency ws w = 0.
Proof.
  intros Hw. unfold frequency.
  induction ws as [|u ws IH]; [done|]. apply not_elem_of_cons in Hw as [Hne Hw].
  rewrite filter_cons_False by done. by apply IH.
Qed.

Lemma counter_incr_fresh (c : Counter) (w : pystr) :
  w ∉ map fst c → counter_incr c w = c ++ [(w, 1)].
Proof.
  induction c as [|[k n] c IH]; simpl; [done|].
  intros [Hne Hw]%not_elem_of_cons.
  rewrite decide_False by done. by rewrite IH.
Qed.

Lemma counter_incr_present (g : pystr → nat) (l : list pystr) (w : pystr) :
  NoDup l → w ∈ l →
  counter_incr (map (λ u, (u, g u)) l) w
  = map (λ u, (u, if decide (w = u) then S (g u) else g u)) l.
Proof.
  induction 1 as [|k l Hk Hnd IH]; [by intros ?%elem_of_nil|].
  simpl. intros Hw. destruct (decide (k = w)) as [-> | Hne].
  - rewrite decide_True by done. f_equal.
    apply map_ext_in. intros u Hu%list_elem_of_In.
    rewrite decide_False; [done|]. by intros <-.
  - rewrite decide_False by done. f_equal. apply IH.
    apply elem_of_cons in Hw as [?|?]; [congruence | done].
Qed.

Lemma tally_snoc (ws : list pystr) (w : pystr) :
  tally (ws ++ [w]) = counter_incr (tally ws) w.
Proof.
  unfold tally. rewrite first_seen_app. simpl.
  destruct (decide (w ∈ ws)) as [Hin | Hnin].
  - rewrite filter_cons_False by tauto. simpl. rewrite app_nil_r.
    rewrite counter_incr_present
      by (apply first_seen_NoDup || by apply first_seen_elem_of).
    apply map_ext. intros u. by rewrite frequency_snoc.
  - rewrite filter_cons_True by done. simpl.
    rewrite counter_incr_fresh.
    2:{ rewrite map_map. simpl. rewrite map_id. by rewrite first_seen_elem_of. }
    rewrite map_app. simpl. f_equal.
    + apply map_ext_in. intros u Hu%list_elem_of_In.
      apply (proj1 (first_seen_elem_of _ _)) in Hu.
      rewrite frequency_snoc, decide_False; [done|]. by intros ->.
    + rewrite frequency_snoc, decide_True, frequency_absent by done. done.
Qed.

(** The counter built token by token is the tally of the tokens. *)
Lemma counter_is_tally (ws : list pystr) : foldl counter_incr [] ws = tally ws.
Proof.
  induction ws as [|w ws IH] using rev_ind; [done|].
  by rewrite foldl_app, tally_snoc, <- IH.
Qed.

(** The function computes the ranking of the blank-separated tokens. *)
Lemma derive_keywords_refines (articles : list Article) :
  derive_keywords_from_articles articles
  = keywords_by_frequency (tokens_blanking articles).
Proof.
  unfold derive_keywords_from_articles, keywords_by_frequency.
  by rewrite count_articles_spec, counter_is_tally.
Qed.

(** *** The ranking is a stable descending sort *)

Lemma precedes_cons {A} (l : list A) (x a b : A) :
  precedes l a b → precedes (x :: l) a b.
Proof. intros (l1 & l2 & l3 & ->). by exists (x :: l1), l2, l3. Qed.

Lemma precedes_head {A} (l : list A) (x b : A) :
  b ∈ l → precedes (x :: l) x b.
Proof. intros (l2 & l3 & ->)%list_elem_of_split. by exists [], l2, l3. Qed.

Lemma precedes_fmap {A B} (f : A → B) (l : list A) (a b : A) :
  precedes l a b → precedes (map f l) (f a) (f b).
Proof.
  intros (l1 & l2 & l3 & ->). exists (map f l1), (map f l2), (map f l3).
  by rewrite map_app, (map_cons f a), map_app.
Qed.

Lemma insert_desc_perm (x : pystr * nat) (l : Counter) :
  insert_desc x l ≡ₚ x :: l.
Proof.
  induction l as [|y r IH]; simpl; [done|].
  destruct (snd x <? snd y); [|done]. rewrite IH. apply Permutation_swap.
Qed.

Lemma sorted_desc_perm (c : Counter) : sorted_desc c ≡ₚ c.
Proof.
  induction c as [|x c IH]; simpl; [done|].
  by rewrite insert_desc_perm, IH.
Qed.

Lemma stable_before_count (c : Counter) (x y : pystr * nat) :
  stable_before c x y → snd y ≤ snd x.
Proof. intros [?|[? _]]; lia. Qed.

Lemma insert_desc_sorted (c : Counter) (x : pystr * nat) (l : Counter) :
  StronglySorted (stable_before c) l →
  (∀ y, y ∈ l → precedes c x y) →
  StronglySorted (stable_before c) (insert_desc x l).
Proof.
  induction 1 as [|y r Hr IH Hy]; intros Hx; simpl.
  { by repeat constructor. }
  destruct (snd x <? snd y) eqn:Hlt.
  - apply Nat.ltb_lt in Hlt. constructor.
    + apply IH. intros z Hz. apply Hx. by right.
    + rewrite insert_desc_perm. constructor; [by left | done].
  - apply Nat.ltb_ge in Hlt. constructor; [by constructor|].
    apply Forall_forall. intros z Hz.
    assert (snd z ≤ snd x) as Hzx.
    { apply elem_of_cons in Hz as [-> | Hz]; [done|].
      rewrite Forall_forall in Hy. apply Hy, stable_before_count in Hz. lia. }
    destruct (decide (snd z = snd x)) as [Heq | Hne].
    + right. split; [done | by apply Hx].
    + left. lia.
Qed.

Lemma StronglySorted_weaken {A} (R R' : A → A → Prop) (l : list A) :
  (∀ x y, x ∈ l → y ∈ l → R x y → R' x y) →
  StronglySorted R l → StronglySorted R' l.
Proof.
  intros HR Hl. induction Hl as [|x l Hl IH Hx]; constructor.
  - apply IH. intros a b Ha Hb. apply HR; by right.
  - rewrite Forall_forall in *. intros y Hy.
    apply HR; [by left | by right | by apply Hx].
Qed.

Lemma sorted_desc_sorted (c : Counter) :
  StronglySorted (stable_before c) (sorted_desc c).
Proof.
  induction c as [|x c IH]; simpl; [constructor|].
  apply insert_desc_sorted.
  - eapply StronglySorted_weaken; [|exact IH].
    intros a b _ _ [Hlt | [Heq Hpre]]; [by left | right].
    split; [done | by apply precedes_cons].
  - intros y Hy. apply precedes_head. by rewrite <- (sorted_desc_perm c).
Qed.

Lemma StronglySorted_map {A B} (f : A → B) (R : A → A → Prop)
    (R' : B → B → Prop) (l : list A) :
  (∀ x y, x ∈ l → y ∈ l → R x y → R' (f x) (f y)) →
  StronglySorted R l → StronglySorted R' (map f l).
Proof.
  intros HR Hl. induction Hl as [|x l Hl IH Hx]; simpl; constructor.
  - apply IH. intros a b Ha Hb. apply HR; by right.
  - apply Forall_fmap, Forall_forall. rewrite Forall_forall in Hx.
    intros y Hy. apply HR; [by left | by right | by apply Hx].
Qed.

Lemma tally_keys (ws : list pystr) : map fst (tally ws) = first_seen ws.
Proof. unfold tally. rewrite map_map. simpl. apply map_id. Qed.

Lemma tally_elem_of (ws : list pystr) (x : pystr * nat) :
  x ∈ tally ws → snd x = frequency ws (fst x).
Proof.
  unfold tally. by intros [w [-> _]]%list_elem_of_fmap.
Qed.

Lemma filter_split {A} (P : A → Prop) `{∀ x, Decision (P x)}
    (l l1 l2 : list A) (a : A) :
  filter P l = l1 ++ a :: l2 →
  ∃ m1 m2, l = m1 ++ a :: m2 ∧ filter P m1 = l1.
Proof.
  revert l1. induction l as [|x l IH]; intros l1.
  - intros Hnil. symmetry in Hnil. by apply app_eq_nil in Hnil as [_ ?].
  - destruct (decide (P x)) as [Hx | Hx].
    + rewrite filter_cons_True by done. destruct l1 as [|y l1]; simpl.
      * intros [= -> _]. by exists [], l.
      * intros [= -> (m1 & m2 & -> & <-)%IH].
        exists (y :: m1), m2. by rewrite filter_cons_True.
    + rewrite filter_cons_False by done.
      intros (m1 & m2 & -> & <-)%IH.
      exists (x :: m1), m2. by rewrite filter_cons_False.
Qed.

(** A place in the first-seen list is a first occurrence in the list
    itself, with the same elements read before it. *)
Lemma first_seen_split {A} `{EqDecision A} (l l1 l2 : list A) (a : A) :
  first_seen l = l1 ++ a :: l2 →
  ∃ pre post, l = pre ++ a :: post ∧ (∀ x, x ∈ pre ↔ x ∈ l1).
Proof.
  revert l1 l2. induction l as [|x l IH]; intros l1 l2; simpl.
  - intros Hnil. symmetry in Hnil. by apply app_eq_nil in Hnil as [_ ?].
  - destruct l1 as [|y l1]; simpl.
    + intros [= -> _]. by exists [], l.
    + intros [= -> (m1 & m2 & Hm & <-)%filter_split].
      apply IH in Hm as (pre & post & -> & Hpre).
      exists (y :: pre), post. split; [done|]. intros x.
      rewrite !elem_of_cons, list_elem_of_filter, Hpre.
      destruct (decide (x = y)); naive_solver.
Qed.

Lemma precedes_first_seen (ws : list pystr) (a b : pystr) :
  precedes (first_seen ws) a b → met_before ws a b.
Proof.
  intros (l1 & l2 & l3 & Hsplit).
  pose proof (first_seen_NoDup ws) as Hnd. rewrite Hsplit in Hnd.
  apply NoDup_app in Hnd as (_ & Hl1 & Hnd).
  apply NoDup_cons in Hnd as [Ha _].
  apply first_seen_split in Hsplit as (pre & post & -> & Hpre).
  exists pre, post. split_and!; [done | | |].
  - rewrite Hpre. intros Hin. apply (Hl1 a Hin). left.
  - rewrite Hpre. intros Hin. apply (Hl1 b Hin). right.
    apply elem_of_app. right. left.
  - intros ->. apply Ha, elem_of_app. right. left.
Qed.

(** The ranking of the tokens [ws]: all distinct tokens, each before
    every token it outranks. *)
Lemma ranking_sorted (ws : list pystr) :
  map fst (sorted_desc (tally ws)) ≡ₚ first_seen ws
  ∧ StronglySorted (ranks_before ws) (map fst (sorted_desc (tally ws))).
Proof.
  split.
  - by rewrite sorted_desc_perm, tally_keys.
  - eapply StronglySorted_map; [|apply sorted_desc_sorted].
    intros x y Hx Hy. rewrite sorted_desc_perm in Hx, Hy.
    apply tally_elem_of in Hx, Hy. unfold stable_before, ranks_before.
    rewrite Hx, Hy. intros [Hlt | [Heq Hpre]]; [by left | right].
    split; [done|]. apply precedes_first_seen.
    rewrite <- tally_keys. by apply precedes_fmap.
Qed.

(** C4, as worded, fails: with the characters outside the class removed
    "ab-cd" would be the single token "abcd"; the function blanks them and
    counts "ab" and "cd". *)
Lemma removing_differs_from_blanking :
  derive_keywords_from_articles [hyphen_article] = [py "ab"; py "cd"]
  ∧ keywords_by_frequency (tokens_removing [hyphen_article]) = [py "abcd"]
  ∧ derive_keywords_from_articles [hyphen_article]
    ≠ keywords_by_frequency (tokens_removing [hyphen_article]).
Proof. split_and!; [by vm_compute | by vm_compute | by vm_compute]. Qed.

(** C4, amended: every character of a title that is no ASCII letter or
    digit, Korean syllable or whitespace is replaced by a space and the
    title is split at whitespace; tokens shorter than two characters or in
    the stop-word set are discarded; the result is the first ten tokens of
    the ranking of the distinct surviving tokens by falling frequency, ties
    in first-encountered order. *)
Theorem derive_keywords_ranking (articles : list Article) :
  let ws := tokens_blanking articles in
  (∀ w, w ∈ ws →
     2 ≤ length w ∧ (w ∉ STOP) ∧ Forall (λ c, is_word_char c = true) w)
  ∧ ∃ ranking,
      ranking ≡ₚ first_seen ws
      ∧ StronglySorted (ranks_before ws) ranking
      ∧ derive_keywords_from_articles articles = take 10 ranking.
Proof.
  intros ws. split.
  - intros w Hw. unfold ws, tokens_blanking in Hw.
    apply elem_of_concat in Hw as [l [Hl Hw]].
    apply list_elem_of_fmap in Hl as [a [-> _]].
    apply list_elem_of_filter in Hw as [[Hlen Hstop] Hw].
    apply title_tokens_words in Hw as [_ Hword]. done.
  - exists (map fst (sorted_desc (tally ws))).
    destruct (ranking_sorted ws) as [Hperm Hsorted]. split_and!; [done..|].
    rewrite derive_keywords_refines. unfold keywords_by_frequency, most_common.
    apply fmap_take.
Qed.

(** ** collect *)

Lemma scrape_realtime_keywords_value (w : World) (st : DriverState) :
  (scrape_realtime_keywords w st).1 = keywords_outcome w.
Proof.
  unfold scrape_realtime_keywords, keywords_outcome, load_outcome.
  unfold try_except, driver_get, wait_dom_ready, sleep, page_source, navigate,
    current_url, raise_if, raise, emit, mbind, M_bind, mret, M_ret.
  simpl.
  destruct (get_result w TRENDS_URL) as [e|]; simpl.
  { by destruct (is_WebDriverException e). }
  destruct (ready_result w TRENDS_URL) as [e|]; simpl.
  { by destruct (is_WebDriverException e). }
  destruct (source_result w TRENDS_URL) as [e|soup]; simpl.
  { by destruct (is_WebDriverException e). }
  by destruct (tbody_rows soup) as [[|row rows]|].
Qed.

Lemma scrape_popular_articles_value (w : World) (st : DriverState) :
  (scrape_popular_articles w st).1 = articles_outcome w.
Proof.
  rewrite scrape_popular_articles_run. unfold articles_outcome.
  destruct (url_outcome w URL_FIRST) as [[r|]|e]; [done | | done].
  by destruct (url_outcome w URL_SECOND) as [[r|]|e].
Qed.

Lemma collect_value (w : World) (headless : bool) (st : DriverState) :
  (collect w headless st).1 = collect_outcome w headless.
Proof.
  unfold collect, collect_outcome, build_driver, driver_quit, utc_now.
  unfold try_except, try_finally, raise_if, raise, emit,
    mbind, M_bind, mret, M_ret.
  simpl.
  destruct (build_result w headless) as [e|]; simpl.
  { by destruct (is_WebDriverException e). }
  match goal with
  | |- context [scrape_realtime_keywords w ?s] =>
      pose proof (scrape_realtime_keywords_value w s) as Hk;
      destruct (scrape_realtime_keywords w s) as [ko st2]
  end.
  simpl in Hk. subst ko.
  destruct (keywords_outcome w) as [keywords|e]; simpl.
  - pose proof (scrape_popular_articles_value w st2) as Ha.
    destruct (scrape_popular_articles w st2) as [ao st3]. simpl in Ha. subst ao.
    destruct (articles_outcome w) as [articles|e]; simpl;
      by destruct (quit_result w).
  - by destruct (quit_result w).
Qed.


Lemma collect_returns (w : World) (headless : bool) (st st' : DriverState)
    (d : pydict) :
  collect w headless st = (Return d, st') →
  (∃ e, build_result w headless = Some e ∧ is_WebDriverException e = true
        ∧ d = driver_failure_record e)
  ∨ (∃ keywords articles,
       build_result w headless = None
       ∧ keywords_outcome w = Return keywords
       ∧ articles_outcome w = Return articles
       ∧ d = assemble (now_isoformat w) keywords articles).
Proof.
  intros Hrun. pose proof (collect_value w headless st) as Hval.
  rewrite Hrun in Hval. simpl in Hval. unfold collect_outcome in Hval.
  destruct (build_result w headless) as [e|].
  - left. exists e. destruct (is_WebDriverException e); [|done].
    by injection Hval as ->.
  - right. destruct (quit_result w); [done|].
    destruct (keywords_outcome w) as [keywords|]; [|done].
    destruct (articles_outcome w) as [articles|]; [|done].
    exists keywords, articles. by injection Hval as ->.
Qed.

Lemma assemble_fields (now : pystr) (keywords : list pystr)
    (articles : list Article) :
  let d := assemble now keywords articles in
  keys d = ["updatedAt"; "keywords"; "articles"; "warnings"]%string
  ∧ keywords_of d = take 10 (fallback_step keywords articles).1
  ∧ articles_of d = take 10 articles
  ∧ warnings_of d = articles_step articles (fallback_step keywords articles).2.
Proof.
  unfold assemble. by destruct (fallback_step keywords articles).
Qed.

Lemma take_nil_inv {A} (l : list A) (n : nat) : take (S n) l = [] → l = [].
Proof. by destruct l. Qed.

Lemma most_common_length (n : nat) (c : Counter) : length (most_common n c) ≤ n.
Proof. unfold most_common. rewrite length_take. lia. Qed.

Lemma derive_keywords_length (articles : list Article) :
  length (derive_keywords_from_articles articles) ≤ 10.
Proof.
  unfold derive_keywords_from_articles. rewrite length_map.
  apply most_common_length.
Qed.

Lemma assemble_warnings (now : pystr) (keywords : list pystr)
    (articles : list Article) :
  let d := assemble now keywords articles in
  keywords_of d = [] ∨ articles_of d = [] → warnings_of d ≠ [].
Proof.
  intros d. destruct (assemble_fields now keywords articles)
    as (_ & Hk & Ha & Hw). fold d in Hk, Ha, Hw. rewrite Hk, Ha, Hw.
  intros [Hempty | Hempty]; apply take_nil_inv in Hempty.
  - unfold fallback_step in *. destruct keywords; [|done].
    destruct (derive_keywords_from_articles articles); [|done].
    by destruct articles.
  - subst articles. simpl. by destruct (fallback_step keywords []).2.
Qed.

(** C6: in a record returned by [collect] the warnings are non-empty
    whenever the keywords or the articles are empty; and when both scrapers
    return the empty list, keywords and articles are empty and there are at
    least two warnings. *)
Theorem collect_warnings (w : World) (headless : bool)
    (st st' : DriverState) (d : pydict) :
  collect w headless st = (Return d, st') →
  (keywords_of d = [] ∨ articles_of d = [] → warnings_of d ≠ [])
  ∧ (keywords_outcome w = Return [] →
     articles_outcome w = Return [] →
     keywords_of d = [] ∧ articles_of d = [] ∧ 2 ≤ length (warnings_of d)).
Proof.
  intros [(e & Hbuild & _ & ->) | (keywords & articles & Hbuild & Hk & Ha & ->)]
    %collect_returns.
  - split; [done|]. intros _ _. split_and!; [done | done | simpl; lia].
  - split; [apply assemble_warnings|].
    intros Hk' Ha'. rewrite Hk' in Hk. rewrite Ha' in Ha.
    injection Hk as <-. injection Ha as <-.
    split_and!; [done | done | simpl; lia].
Qed.

(** C5, as worded, fails: ten articles whose titles hold no countable token
    leave the derived keywords empty, and the record then carries the
    no-keywords warning and no fallback notice. *)
Lemma fallback_notice_missing : ¬ fallback_always_noticed quiet_world true.
Proof.
  intros Hclaim.
  edestruct (Hclaim initial) as [_ Hone].
  - vm_compute. reflexivity.
  - reflexivity.
  - vm_compute. reflexivity.
  - done.
  - vm_compute in Hone. discriminate.
Qed.

(** C5, amended: when the keyword scraper returns the empty list, the
    article scraper returns at least one article and the keywords derived
    from those articles are not empty, the record has the derived keywords
    as its keywords and the fallback notice as its only warning; when the
    derived keywords are empty the keywords stay empty and the only warning
    is the no-keywords notice. *)
Theorem collect_fallback (w : World) (headless : bool)
    (st st' : DriverState) (d : pydict) (articles : list Article) :
  collect w headless st = (Return d, st') →
  build_result w headless = None →
  keywords_outcome w = Return [] →
  articles_outcome w = Return articles →
  articles ≠ [] →
  (derive_keywords_from_articles articles ≠ [] →
     keywords_of d = derive_keywords_from_articles articles
     ∧ warnings_of d = [MSG_FALLBACK]
     ∧ notices MSG_FALLBACK d = 1)
  ∧ (derive_keywords_from_articles articles = [] →
     keywords_of d = [] ∧ warnings_of d = [MSG_NO_KEYWORDS]
     ∧ notices MSG_FALLBACK d = 0).
Proof.
  intros Hrun Hbuild Hk Ha Hne.
  apply collect_returns in Hrun
    as [(e & Hbuild' & _) | (keywords & arts & _ & Hk' & Ha' & ->)].
  { by rewrite Hbuild in Hbuild'. }
  rewrite Hk in Hk'. rewrite Ha in Ha'. injection Hk' as <-. injection Ha' as <-.
  destruct (assemble_fields (now_isoformat w) [] articles) as (_ & Hkw & _ & Hw).
  unfold notices. rewrite Hkw, Hw. unfold fallback_step.
  pose proof (derive_keywords_length articles) as Hlen.
  destruct (derive_keywords_from_articles articles) as [|k alt] eqn:Halt.
  - split; [done|]. intros _. by destruct articles.
  - split; [|done]. intros _. rewrite take_ge by done.
    destruct articles; [done|]. done.
Qed.

(** X23: the keys of a record returned by [collect]: all four on the
    normal path, and no [updatedAt] when the driver could not be started. *)
Lemma collect_keys (w : World) (headless : bool) (st st' : DriverState)
    (d : pydict) :
  collect w headless st = (Return d, st') →
  keys d = match build_result w headless with
           | None => ["updatedAt"; "keywords"; "articles"; "warnings"]
           | Some _ => ["keywords"; "articles"; "warnings"]
           end%string.
Proof.
  intros [(e & -> & _ & ->) | (keywords & articles & -> & _ & _ & ->)]
    %collect_returns; [done|].
  apply assemble_fields.
Qed.

(** C7 at the failing input: when [build_driver] raises a
    [WebDriverException] the record [collect] returns has the three keys
    keywords, articles and warnings, and no updatedAt. *)
Theorem driver_failure_record_lacks_updatedAt :
  ∃ d st',
    collect (world_build_raising no_chrome) true initial = (Return d, st')
    ∧ keys d = ["keywords"; "articles"; "warnings"]%string
    ∧ get d "updatedAt" = None.
Proof.
  eexists _, _. split_and!; [by vm_compute | done | done].
Qed.




(** ** Sample runs *)

(** C1 on a run whose first page offers ten entries. *)
Lemma scrape_popular_articles_entries_witness :
  scrape_popular_articles news_world initial = (Return news_result, news_state)
  ∧ length news_result ≤ 10
  ∧ (∀ item, item ∈ news_result →
       4 ≤ length (title item)
       ∧ ∃ pre post, href item = pre ++ ARTICLE_MARK ++ post)
  ∧ NoDup (map key_of news_result)
  ∧ (news_result = [] ∨
     ∃ url soup, url ∈ URLS ∧ load_outcome news_world url = inr soup
                 ∧ news_result = take 10 (first_seen (page_raw soup))).
Proof.
  split; [vm_compute; reflexivity|].
  apply (scrape_popular_articles_entries news_world initial news_state).
  vm_compute; reflexivity.
Defined.

(** C10 on the same run. *)
Lemma scrape_popular_articles_ten_or_none_witness :
  scrape_popular_articles news_world initial = (Return news_result, news_state)
  ∧ (news_result = [] ∨
     length news_result = 10 ∧
     ∃ url soup, url ∈ URLS ∧ load_outcome news_world url = inr soup
                 ∧ 10 ≤ length (first_seen (page_raw soup))
                 ∧ news_result = take 10 (first_seen (page_raw soup)))
  ∧ ((∀ url soup, url ∈ URLS → load_outcome news_world url = inr soup →
        length (first_seen (page_raw soup)) < 10) → news_result = []).
Proof.
  split; [vm_compute; reflexivity|].
  apply (scrape_popular_articles_ten_or_none news_world initial news_state).
  vm_compute; reflexivity.
Defined.

Lemma second_only_skips_first : skipped world_second_only URL_FIRST.
Proof. vm_compute. lia. Defined.

Lemma blank_world_skips (url : pystr) : skipped blank_world url.
Proof. vm_compute. lia. Defined.

(** C2, amended, on three runs: ten entries on the first page, ten on the
    second page only, and none on either. *)
Lemma scrape_popular_articles_per_url_witness :
  (load_outcome news_world URL_FIRST = inr news_page
   ∧ 10 ≤ length (first_seen (page_raw news_page))
   ∧ scrape_popular_articles news_world initial
     = (Return (take 10 (first_seen (page_raw news_page))),
        after initial URL_FIRST (full_trace URL_FIRST)))
  ∧ (skipped world_second_only URL_FIRST
     ∧ load_outcome world_second_only URL_SECOND = inr news_page
     ∧ scrape_popular_articles world_second_only initial
       = (Return (take 10 (first_seen (page_raw news_page))),
          after initial URL_SECOND
            (url_trace world_second_only URL_FIRST ++ full_trace URL_SECOND)))
  ∧ (skipped blank_world URL_FIRST ∧ skipped blank_world URL_SECOND
     ∧ (scrape_popular_articles blank_world initial).1 = Return []).
Proof.
  assert (10 ≤ length (first_seen (page_raw news_page))) as Hten
    by (vm_compute; lia).
  split_and!.
  - reflexivity.
  - exact Hten.
  - exact (proj1 (scrape_popular_articles_per_url news_world initial)
             news_page eq_refl Hten).
  - exact second_only_skips_first.
  - reflexivity.
  - exact (proj1 (proj2 (scrape_popular_articles_per_url
                           world_second_only initial))
             news_page second_only_skips_first eq_refl Hten).
  - exact (blank_world_skips URL_FIRST).
  - exact (blank_world_skips URL_SECOND).
  - exact (proj2 (proj2 (scrape_popular_articles_per_url blank_world initial))
             (blank_world_skips URL_FIRST) (blank_world_skips URL_SECOND)).
Defined.

(** C6 on a run in which both scrapers return the empty list. *)
Lemma collect_warnings_witness :
  collect blank_world true initial
  = (Return blank_record, (collect blank_world true initial).2)
  ∧ keywords_outcome blank_world = Return []
  ∧ articles_outcome blank_world = Return []
  ∧ (keywords_of blank_record = [] ∨ articles_of blank_record = [] →
     warnings_of blank_record ≠ [])
  ∧ keywords_of blank_record = [] ∧ articles_of blank_record = []
  ∧ 2 ≤ length (warnings_of blank_record).
Proof.
  assert (collect blank_world true initial
          = (Return blank_record, (collect blank_world true initial).2))
    as Hrun by (vm_compute; reflexivity).
  destruct (collect_warnings blank_world true initial _ blank_record Hrun)
    as [Hw Hboth].
  split_and!; [exact Hrun | reflexivity | reflexivity | exact Hw
              | apply Hboth; reflexivity ..].
Defined.

(** C5 on a run whose ten titles share the token "news". *)
Lemma collect_fallback_witness :
  collect news_world true initial
  = (Return news_record, (collect news_world true initial).2)
  ∧ build_result news_world true = None
  ∧ keywords_outcome news_world = Return []
  ∧ articles_outcome news_world = Return news_result
  ∧ news_result ≠ []
  ∧ derive_keywords_from_articles news_result ≠ []
  ∧ keywords_of news_record = derive_keywords_from_articles news_result
  ∧ warnings_of news_record = [MSG_FALLBACK]
  ∧ notices MSG_FALLBACK news_record = 1.
Proof.
  assert (collect news_world true initial
          = (Return news_record, (collect news_world true initial).2))
    as Hrun by (vm_compute; reflexivity).
  assert (articles_outcome news_world = Return news_result) as Ha
    by (vm_compute; reflexivity).
  assert (news_result ≠ []) as Hne by (vm_compute; discriminate).
  assert (derive_keywords_from_articles news_result ≠ []) as Halt
    by (vm_compute; discriminate).
  destruct (collect_fallback news_world true initial _ news_record news_result
              Hrun eq_refl eq_refl Ha Hne) as [Hsome _].
  split_and!; [exact Hrun | reflexivity | reflexivity | exact Ha | exact Hne
              | exact Halt | apply (Hsome Halt) ..].
Defined.



(** ** The scenarios of the specification *)

Example unique_top_ex :
  unique_top [py "  a   b "; []; py "a b"; py "c"] 10 = [py "a b"; py "c"].
Proof. by vm_compute. Qed.

Example split_ex : split (py "  ab  c d ") = [py "ab"; py "c"; py "d"].
Proof. reflexivity. Qed.

(** One row 오늘 날씨 gives the keyword 오늘 날씨. *)
Example keywords_scenario :
  keywords_outcome (world_showing weather_page)
  = Return [[50724; 45720; 32; 45216; 50472]%N].
Proof. by vm_compute. Qed.

Example href_root_relative :
  normalize_article_href (py "/article/123")
  = py "https://news.naver.com/article/123".
Proof. reflexivity. Qed.

Example href_protocol_relative :
  normalize_article_href (py "//x.com/a") = py "https://x.com/a".
Proof. reflexivity. Qed.

Example href_absolute :
  normalize_article_href (py "http://y.com") = py "http://y.com".
Proof. reflexivity. Qed.

Example href_bare :
  normalize_article_href (py "article/9")
  = py "https://news.naver.com/article/9".
Proof. reflexivity. Qed.

(** 속보 and 한국 are stop words; 경제, 위기 and 심화 survive. *)
Example derive_scenario :
  derive_keywords_from_articles [crisis_article]
  = [ [44221; 51228]; [50948; 44592]; [49900; 54868] ]%N.
Proof. by vm_compute. Qed.

(** Ties stay in first-encountered order; the more frequent token leads. *)
Example derive_ties :
  derive_keywords_from_articles
    [ {| title := py "bb aa cc aa"; href := [] |};
      {| title := py "dd cc"; href := [] |} ]
  = [py "aa"; py "cc"; py "bb"; py "dd"].
Proof. by vm_compute. Qed.

(** Driver construction raises: three keys, two warnings, one call. *)
Example driver_failure_scenario :
  collect (world_build_raising no_chrome) true initial
  = (Return [ ("keywords"%string, VStrList []);
              ("articles"%string, VArticles []);
              ("warnings"%string,
               VStrList [MSG_DRIVER_FAILED ++ py "Message: session not created";
                         MSG_DRIVER_HINT]) ],
     {| current := current initial; trace := [EvBuildDriver true] |}).
Proof. by vm_compute. Qed.

(** [driver.quit()] runs in a [finally] without [except]: what it raises
    reaches the caller, whatever its class. *)
Example quit_failure_scenario :
  (collect world_quit_raising true initial).1
  = Raise (WebDriverException (py "Message: disconnected")).
Proof. by vm_compute. Qed.

(** * Further properties *)

(** ** Text normalisation *)

Lemma collapse_ws_words (b : bool) (s : pystr) :
  words_of (collapse_ws b s) = words_of s.
Proof.
  unfold words_of. revert b.
  induction s as [|c r IH]; intros b; simpl; [done|].
  destruct (is_space c) eqn:Hc.
  - rewrite (filter_cons_False _ c) by (by rewrite Hc).
    destruct b; [apply IH|].
    rewrite filter_cons_False by done. apply IH.
  - rewrite !filter_cons_True by done. by rewrite IH.
Qed.

Lemma lstrip_words (s : pystr) : words_of (lstrip s) = words_of s.
Proof.
  unfold words_of. induction s as [|c r IH]; simpl; [done|].
  destruct (is_space c) eqn:Hc; [|done].
  by rewrite (filter_cons_False _ c) by (by rewrite Hc).
Qed.

Lemma rstrip_words (s : pystr) : words_of (rstrip s) = words_of s.
Proof.
  unfold rstrip. unfold words_of at 1. rewrite filter_reverse.
  fold (words_of (lstrip (reverse s))). rewrite lstrip_words.
  unfold words_of. by rewrite filter_reverse, reverse_involutive.
Qed.

Lemma collapse_ws_length (b : bool) (s : pystr) :
  length (collapse_ws b s) ≤ length s.
Proof.
  revert b. induction s as [|c r IH]; intros b; simpl; [done|].
  pose proof (IH true). pose proof (IH false).
  destruct (is_space c); [destruct b|]; simpl; lia.
Qed.

Lemma lstrip_length (s : pystr) : length (lstrip s) ≤ length s.
Proof.
  induction s as [|c r IH]; simpl; [done|].
  destruct (is_space c); simpl; lia.
Qed.

(** X1: normalising touches whitespace only: the other characters of the
    result are those of the input, in the same order, and the result is
    never longer than the input. *)
Theorem normalize_text_keeps_words (s : pystr) :
  words_of (normalize_text s) = words_of s
  ∧ length (normalize_text s) ≤ length s.
Proof.
  unfold normalize_text, strip. split.
  - by rewrite rstrip_words, lstrip_words, collapse_ws_words.
  - unfold rstrip. rewrite length_reverse.
    etrans; [apply lstrip_length|]. rewrite length_reverse.
    etrans; [apply lstrip_length|]. apply collapse_ws_length.
Qed.

(** X2: what [normalize_text] returns is collapsed and trimmed, and the
    collapsed and trimmed strings are exactly the ones it leaves
    unchanged. *)
Theorem normalize_text_fixed_points (s : pystr) :
  normal_text (normalize_text s)
  ∧ (normalize_text s = s ↔ normal_text s).
Proof.
  split; [apply normalize_text_normal|]. split.
  - intros <-. apply normalize_text_normal.
  - apply normalize_text_fixed.
Qed.

(** ** unique_top, further *)

(** X3 on four values of which two are kept. *)
Lemma unique_top_properties_witness :
  (1 ≤ 10)%Z
  ∧ (Z.of_nat (length (unique_top sample_values 10)) ≤ 10)%Z
  ∧ NoDup (unique_top sample_values 10)
  ∧ (∀ t, t ∈ unique_top sample_values 10 →
       t ≠ [] ∧ normal_text t ∧ normalize_text t = t
       ∧ ∃ v, v ∈ sample_values ∧ t = normalize_text v)
  ∧ unique_top sample_values 10 = unique_top_spec sample_values 10.
Proof.
  split; [lia|]. apply (unique_top_properties sample_values 10). lia.
Defined.

(** X4 on the same values with limit 0. *)
Lemma unique_top_nonpositive_witness :
  (0 ≤ 0)%Z
  ∧ unique_top sample_values 0
    = take 1 (first_seen (filter (λ t, t ≠ [])
                                 (map normalize_text sample_values))).
Proof.
  split; [lia|]. apply (unique_top_nonpositive sample_values 0). lia.
Defined.

(** X5: for a limit of at least one, [unique_top] leaves its own results
    as they are. *)
Theorem unique_top_idempotent (values : list pystr) (limit : Z) :
  (1 ≤ limit)%Z →
  unique_top (unique_top values limit) limit = unique_top values limit.
Proof.
  intros Hlim. rewrite (unique_top_refines (unique_top values limit)) by done.
  rewrite (unique_top_refines values) by done.
  set (r := unique_top_spec values limit). unfold unique_top_spec at 1.
  assert (∀ t, t ∈ r → t ≠ [] ∧ normalize_text t = t) as Hr.
  { intros t [Hne Ht]%take_first_seen_elem_of%list_elem_of_filter.
    apply list_elem_of_fmap in Ht as [v [-> _]].
    split; [done | apply normalize_text_idempotent]. }
  assert (map normalize_text r = r) as ->.
  { rewrite <- (map_id r) at 2. apply map_ext_in.
    intros t Ht%list_elem_of_In. by apply Hr. }
  rewrite filter_all by (intros t Ht; by apply Hr).
  rewrite first_seen_of_NoDup by apply take_first_seen_NoDup.
  apply take_ge. unfold r, unique_top_spec. rewrite length_take. lia.
Qed.

Lemma unique_top_idempotent_witness :
  (1 ≤ 10)%Z
  ∧ unique_top (unique_top sample_values 10) 10 = unique_top sample_values 10.
Proof.
  split; [lia|]. apply (unique_top_idempotent sample_values 10). lia.
Defined.

(** X22: raising the limit only appends: for limits of at least one the
    result for the smaller limit is a prefix of the result for the larger
    one. *)
Theorem unique_top_prefix (values : list pystr) (n m : Z) :
  (1 ≤ n)%Z → (n ≤ m)%Z →
  unique_top values n `prefix_of` unique_top values m.
Proof.
  intros Hn Hm. rewrite !unique_top_refines by lia. unfold unique_top_spec.
  replace (Z.to_nat n) with (Z.to_nat n `min` Z.to_nat m) by lia.
  rewrite <- take_take. apply prefix_take.
Qed.

Lemma unique_top_prefix_witness :
  (1 ≤ 1)%Z ∧ (1 ≤ 10)%Z
  ∧ unique_top sample_values 1 `prefix_of` unique_top sample_values 10.
Proof.
  split; [lia|]. split; [lia|].
  apply (unique_top_prefix sample_values 1 10); lia.
Defined.

(** ** normalize_article_href, further *)

Lemma normalize_article_href_suffix (href : pystr) :
  ∃ prefix, normalize_article_href href = prefix ++ href.
Proof.
  destruct href as [|c r]; [by exists []|]. unfold normalize_article_href.
  destruct (_ || _); [by exists []|].
  destruct (startswith (c :: r) (py "//")); [by exists (py "https:")|].
  destruct (startswith (c :: r) (py "/")); [by exists ORIGIN|].
  exists (ORIGIN ++ py "/"). by rewrite <- (assoc_L (++)).
Qed.

Lemma normalize_article_href_absolute (href : pystr) :
  href ≠ [] → is_absolute (normalize_article_href href) = true.
Proof.
  destruct href as [|c r]; [done|]. intros _.
  unfold normalize_article_href. fold (is_absolute (c :: r)).
  destruct (is_absolute (c :: r)) eqn:Habs; [done|].
  destruct (startswith (c :: r) (py "//")) eqn:Hrel.
  { apply startswith_spec in Hrel as [r' ->]. done. }
  by destruct (startswith (c :: r) (py "/")).
Qed.

(** X6: [normalize_article_href] only ever puts a prefix in front of its
    argument, and none in front of an absolute URL; the result is empty
    exactly for the empty string and an absolute URL otherwise. *)
Theorem normalize_article_href_shape (href : pystr) :
  (∃ prefix, normalize_article_href href = prefix ++ href
             ∧ (is_absolute href = true → prefix = []))
  ∧ (normalize_article_href href = [] ↔ href = [])
  ∧ (href ≠ [] → is_absolute (normalize_article_href href) = true).
Proof.
  destruct href as [|c r].
  { split_and!; [by exists [] | done | done]. }
  unfold normalize_article_href. fold (is_absolute (c :: r)).
  destruct (is_absolute (c :: r)) eqn:Habs.
  { split_and!; [by exists [] | done | done]. }
  destruct (startswith (c :: r) (py "//")) eqn:Hrel.
  { split_and!; [by exists (py "https:") | done |].
    apply startswith_spec in Hrel as [r' ->]. done. }
  destruct (startswith (c :: r) (py "/")).
  - split_and!; [by exists ORIGIN | done | done].
  - split_and!; [|done|done].
    exists (ORIGIN ++ py "/"). by rewrite <- (assoc_L (++)).
Qed.

(** X7: whatever occurs in an href still occurs in its normal form; the
    test for "/article/" made after normalising rejects no href that held
    the marker before. *)
Theorem normalize_article_href_keeps (needle href : pystr) :
  contains needle href = true →
  contains needle (normalize_article_href href) = true.
Proof.
  intros (pre & post & Hsplit)%contains_spec.
  destruct (normalize_article_href_suffix href) as [prefix ->].
  apply contains_spec. exists (prefix ++ pre), post.
  by rewrite Hsplit, <- !(assoc_L (++)).
Qed.

Lemma normalize_article_href_keeps_witness :
  contains ARTICLE_MARK (py "/article/123") = true
  ∧ contains ARTICLE_MARK (normalize_article_href (py "/article/123")) = true.
Proof.
  split; [reflexivity|].
  apply (normalize_article_href_keeps ARTICLE_MARK (py "/article/123")).
  reflexivity.
Defined.

(** ** The scrapers, further *)

Lemma normalize_article_href_of_absolute (href : pystr) :
  is_absolute href = true → normalize_article_href href = href.
Proof.
  destruct href as [|c r]; [done|]. intros Habs.
  unfold normalize_article_href. fold (is_absolute (c :: r)). by rewrite Habs.
Qed.

Lemma candidate_fields (a : Anchor) (item : Article) :
  candidate a = Some item →
  title item = normalize_text (a_text a)
  ∧ href item = normalize_article_href (default [] (a_href a))
  ∧ is_absolute (href item) = true.
Proof.
  unfold candidate.
  destruct (length (normalize_text (a_text a)) <? 4); [done|].
  destruct (contains ARTICLE_MARK _) eqn:Hmark; [|done].
  intros [= <-]. simpl. split_and!; [done | done |].
  set (h := default [] (a_href a)) in *.
  destruct h as [|c r]; [done|]. by apply normalize_article_href_absolute.
Qed.

Lemma page_raw_elem_of (soup : Soup) (item : Article) :
  item ∈ page_raw soup →
  ∃ sel a, sel ∈ SELECTORS ∧ a ∈ select soup sel ∧ candidate a = Some item.
Proof.
  unfold page_raw. intros [l [Hl Hitem]]%elem_of_concat.
  apply list_elem_of_fmap in Hl as [sel [-> Hsel]].
  apply list_elem_of_omap in Hitem as [a [Ha Hcand]].
  by exists sel, a.
Qed.

(** X8: every article [scrape_popular_articles] returns stems from an
    element that one of the five selectors matched on the page of one of
    the two URLs: its title is the normalised text of that element,
    collapsed and trimmed, and its href the normalised link, an absolute
    URL that normalising again leaves unchanged. *)
Theorem scrape_popular_articles_provenance (w : World)
    (st st' : DriverState) (r : list Article) :
  scrape_popular_articles w st = (Return r, st') →
  ∀ item, item ∈ r →
    normal_text (title item)
    ∧ is_absolute (href item) = true
    ∧ normalize_article_href (href item) = href item
    ∧ ∃ url soup sel a,
        url ∈ URLS ∧ load_outcome w url = inr soup
        ∧ sel ∈ SELECTORS ∧ a ∈ select soup sel
        ∧ title item = normalize_text (a_text a)
        ∧ href item = normalize_article_href (default [] (a_href a)).
Proof.
  intros Hrun item Hitem.
  apply scrape_urls_returns in Hrun as [-> | [url [Hurl Hout]]].
  { by apply elem_of_nil in Hitem. }
  apply url_outcome_Some in Hout as [soup [Hload [_ ->]]].
  apply take_first_seen_elem_of, page_raw_elem_of in Hitem
    as (sel & a & Hsel & Ha & Hcand).
  apply candidate_fields in Hcand as (Htitle & Hhref & Habs).
  split_and!.
  - rewrite Htitle. apply normalize_text_normal.
  - done.
  - by apply normalize_article_href_of_absolute.
  - by exists url, soup, sel, a.
Qed.

Lemma unique_top_spec_elem_of (values : list pystr) (limit : Z) (t : pystr) :
  t ∈ unique_top_spec values limit →
  t ≠ [] ∧ ∃ v, v ∈ values ∧ t = normalize_text v.
Proof.
  intros [Hne Ht]%take_first_seen_elem_of%list_elem_of_filter.
  apply list_elem_of_fmap in Ht as [v [-> Hv]]. split; [done | by exists v].
Qed.

(** X9: the keywords [scrape_realtime_keywords] returns are at most ten,
    pairwise distinct and non-empty; each is the collapsed and trimmed text
    of a keyword cell in a row of the trends table. *)
Theorem scrape_realtime_keywords_keywords (w : World)
    (st st' : DriverState) (keywords : list pystr) :
  scrape_realtime_keywords w st = (Return keywords, st') →
  length keywords ≤ 10
  ∧ NoDup keywords
  ∧ ∀ k, k ∈ keywords →
      k ≠ [] ∧ normal_text k
      ∧ ∃ soup rows text,
          load_outcome w TRENDS_URL = inr soup
          ∧ tbody_rows soup = Some rows
          ∧ Some text ∈ rows ∧ k = normalize_text text.
Proof.
  intros Hrun. pose proof (scrape_realtime_keywords_value w st) as Hval.
  rewrite Hrun in Hval. simpl in Hval. unfold keywords_outcome in Hval.
  destruct (load_outcome w TRENDS_URL) as [e|soup] eqn:Hload.
  { destruct (is_WebDriverException e); [|done]. injection Hval as ->.
    split_and!; [simpl; lia | constructor | by intros k ?%elem_of_nil]. }
  injection Hval as ->.
  destruct (tbody_rows soup) as [[|row rows]|] eqn:Hrows;
    try (split_and!; [simpl; lia | constructor | by intros k ?%elem_of_nil]).
  rewrite unique_top_refines by lia. unfold unique_top_spec at 1 2.
  split_and!.
  - rewrite length_take. lia.
  - apply take_first_seen_NoDup.
  - intros k (Hne & text & Htext & ->)%unique_top_spec_elem_of.
    split_and!; [done | apply normalize_text_normal|].
    exists soup, (row :: rows), text. split_and!; [done | done | | done].
    apply list_elem_of_omap in Htext as [o [Ho Hid]]. simpl in Hid.
    by subst o.
Qed.

Lemma scrape_realtime_keywords_keywords_witness :
  scrape_realtime_keywords weather_world initial
  = (Return weather_keywords,
     (scrape_realtime_keywords weather_world initial).2)
  ∧ length weather_keywords ≤ 10
  ∧ NoDup weather_keywords
  ∧ ∀ k, k ∈ weather_keywords →
      k ≠ [] ∧ normal_text k
      ∧ ∃ soup rows text,
          load_outcome weather_world TRENDS_URL = inr soup
          ∧ tbody_rows soup = Some rows
          ∧ Some text ∈ rows ∧ k = normalize_text text.
Proof.
  assert (scrape_realtime_keywords weather_world initial
          = (Return weather_keywords,
             (scrape_realtime_keywords weather_world initial).2)) as Hrun
    by (vm_compute; reflexivity).
  split; [exact Hrun|].
  exact (scrape_realtime_keywords_keywords weather_world initial _ _ Hrun).
Defined.

Lemma outcomes_raise (w : World) (e : exn) :
  keywords_outcome w = Raise e ∨ articles_outcome w = Raise e →
  is_WebDriverException e = false
  ∧ ∃ url, url ∈ TRENDS_URL :: URLS ∧ load_outcome w url = inl e.
Proof.
  assert (∀ url, url_outcome w url = Raise e →
                 is_WebDriverException e = false
                 ∧ load_outcome w url = inl e) as Hurl.
  { intros url. unfold url_outcome.
    destruct (load_outcome w url) as [e'|]; [|done].
    destruct (is_WebDriverException e') eqn:Hwd; [done|].
    by intros [= <-]. }
  intros [Hk | Ha].
  - unfold keywords_outcome in Hk.
    destruct (load_outcome w TRENDS_URL) as [e'|] eqn:Hload; [|done].
    destruct (is_WebDriverException e') eqn:Hwd; [done|].
    injection Hk as ->. split; [done|]. exists TRENDS_URL. split; [left | done].
  - unfold articles_outcome in Ha.
    destruct (url_outcome w URL_FIRST) as [[r|]|e1] eqn:H1; [done | |].
    + destruct (url_outcome w URL_SECOND) as [[r|]|e2] eqn:H2; [done..|].
      injection Ha as ->. destruct (Hurl _ H2) as [Hwd Hload].
      split; [done|]. exists URL_SECOND. split; [|done].
      unfold URLS. set_solver.
    + injection Ha as ->. destruct (Hurl _ H1) as [Hwd Hload].
      split; [done|]. exists URL_FIRST. split; [|done].
      unfold URLS. set_solver.
Qed.

(** X10: a scraper lets no [WebDriverException] through: what
    [scrape_realtime_keywords] or [scrape_popular_articles] raises is an
    exception of another class, raised while one of their pages was
    loaded. *)
Theorem scrapers_raise_no_webdriver_exception (w : World)
    (st : DriverState) (e : exn) :
  (scrape_realtime_keywords w st).1 = Raise e
  ∨ (scrape_popular_articles w st).1 = Raise e →
  is_WebDriverException e = false
  ∧ ∃ url, url ∈ TRENDS_URL :: URLS ∧ load_outcome w url = inl e.
Proof.
  rewrite scrape_realtime_keywords_value, scrape_popular_articles_value.
  apply outcomes_raise.
Qed.

Lemma scrapers_raise_no_webdriver_exception_witness :
  ((scrape_realtime_keywords world_source_raising initial).1
   = Raise connection_lost
   ∨ (scrape_popular_articles world_source_raising initial).1
     = Raise connection_lost)
  ∧ is_WebDriverException connection_lost = false
  ∧ ∃ url, url ∈ TRENDS_URL :: URLS
           ∧ load_outcome world_source_raising url = inl connection_lost.
Proof.
  assert ((scrape_realtime_keywords world_source_raising initial).1
          = Raise connection_lost
          ∨ (scrape_popular_articles world_source_raising initial).1
            = Raise connection_lost) as Hraise by (left; by vm_compute).
  split; [exact Hraise|].
  exact (scrapers_raise_no_webdriver_exception
           world_source_raising initial connection_lost Hraise).
Defined.

(** ** collect, further *)

Lemma scrape_realtime_keywords_run (w : World) (st : DriverState) :
  scrape_realtime_keywords w st
  = (keywords_outcome w, after st TRENDS_URL (keywords_trace w)).
Proof.
  unfold scrape_realtime_keywords, keywords_outcome, keywords_trace,
    load_outcome.
  unfold try_except, driver_get, wait_dom_ready, sleep, page_source, navigate,
    current_url, raise_if, raise, emit, mbind, M_bind, mret, M_ret, after.
  simpl.
  destruct (get_result w TRENDS_URL) as [e|]; simpl.
  { by destruct (is_WebDriverException e). }
  destruct (ready_result w TRENDS_URL) as [e|]; simpl.
  { destruct (is_WebDriverException e); by rewrite <- !(assoc_L (++)). }
  destruct (source_result w TRENDS_URL) as [e|soup]; simpl.
  { destruct (is_WebDriverException e); by rewrite <- !(assoc_L (++)). }
  destruct (tbody_rows soup) as [[|row rows]|];
    by rewrite <- !(assoc_L (++)).
Qed.

Lemma scrape_popular_articles_trace (w : World) (st : DriverState) :
  trace (scrape_popular_articles w st).2 = trace st ++ articles_trace w.
Proof.
  rewrite scrape_popular_articles_run. unfold articles_trace.
  destruct (url_outcome w URL_FIRST) as [[r|]|e]; simpl;
    [by rewrite app_nil_r | | by rewrite app_nil_r].
  by destruct (url_outcome w URL_SECOND) as [[r|]|e].
Qed.

Lemma collect_trace (w : World) (headless : bool) (st : DriverState) :
  trace (collect w headless st).2
  = trace st ++ EvBuildDriver headless ::
    match build_result w headless with
    | Some _ => []
    | None => scraping_trace w ++ [EvQuit]
    end.
Proof.
  unfold collect, build_driver, driver_quit, utc_now, scraping_trace.
  unfold try_except, try_finally, raise_if, raise, emit,
    mbind, M_bind, mret, M_ret.
  simpl.
  destruct (build_result w headless) as [e|]; simpl.
  { by destruct (is_WebDriverException e). }
  rewrite scrape_realtime_keywords_run.
  destruct (keywords_outcome w) as [keywords|e]; simpl.
  - match goal with
    | |- context [scrape_popular_articles w ?s] =>
        pose proof (scrape_popular_articles_trace w s) as Ht;
        destruct (scrape_popular_articles w s) as [ao st3]
    end.
    simpl in Ht.
    destruct ao; destruct (quit_result w); simpl; rewrite Ht;
      by rewrite <- !(assoc_L (++)).
  - destruct (quit_result w); simpl; by rewrite <- !(assoc_L (++)).
Qed.

Lemma url_trace_page_events (w : World) (url : pystr) :
  Forall page_event (url_trace w url).
Proof.
  unfold url_trace, load_trace. apply Forall_app. split.
  - destruct (get_result w url); [by repeat constructor|].
    destruct (ready_result w url); by repeat constructor.
  - destruct (load_outcome w url); [constructor|].
    apply Forall_fmap, Forall_true. done.
Qed.

Lemma scraping_trace_page_events (w : World) :
  Forall page_event (scraping_trace w).
Proof.
  unfold scraping_trace, keywords_trace, articles_trace.
  apply Forall_app. split.
  - destruct (get_result w TRENDS_URL); [by repeat constructor|].
    destruct (ready_result w TRENDS_URL); by repeat constructor.
  - destruct (keywords_outcome w); [|constructor].
    apply Forall_app. split; [apply url_trace_page_events|].
    destruct (url_outcome w URL_FIRST) as [[r|]|e];
      try constructor. apply url_trace_page_events.
Qed.

(** X11: a driver that was started is closed exactly once, as the last
    call of the run, whether [collect] returns or raises and whatever the
    scrapers met; between start and end only page calls are made, the first
    of them loading the trends page.  A driver that could not be started is
    never closed: [build_driver] stays the only call. *)
Theorem collect_releases_driver (w : World) (headless : bool)
    (st : DriverState) :
  (build_result w headless = None →
   ∃ evs,
     trace (collect w headless st).2
     = trace st ++ EvBuildDriver headless :: EvGet TRENDS_URL :: evs ++ [EvQuit]
     ∧ Forall page_event evs)
  ∧ (∀ e, build_result w headless = Some e →
          trace (collect w headless st).2
          = trace st ++ [EvBuildDriver headless]).
Proof.
  rewrite collect_trace. split.
  - intros ->. pose proof (scraping_trace_page_events w) as Hev.
    assert (∃ evs, scraping_trace w = EvGet TRENDS_URL :: evs) as [evs Hevs].
    { unfold scraping_trace, keywords_trace.
      destruct (get_result w TRENDS_URL); [by eexists|].
      destruct (ready_result w TRENDS_URL); by eexists. }
    rewrite Hevs in *. exists evs. split; [done|].
    by apply Forall_cons in Hev as [_ ?].
  - by intros e ->.
Qed.

Lemma collect_releases_driver_witness :
  build_result world_source_raising true = None
  ∧ (∃ evs,
       trace (collect world_source_raising true initial).2
       = trace initial ++
         EvBuildDriver true :: EvGet TRENDS_URL :: evs ++ [EvQuit]
       ∧ Forall page_event evs)
  ∧ build_result (world_build_raising offline) true = Some offline
  ∧ trace (collect (world_build_raising offline) true initial).2
    = trace initial ++ [EvBuildDriver true].
Proof.
  split_and!.
  - reflexivity.
  - exact (proj1 (collect_releases_driver world_source_raising true initial)
             eq_refl).
  - reflexivity.
  - exact (proj2 (collect_releases_driver
                    (world_build_raising offline) true initial)
             offline eq_refl).
Defined.

Lemma loads_app (l1 l2 : list event) : loads (l1 ++ l2) = loads l1 ++ loads l2.
Proof. apply omap_app. Qed.

Lemma loads_select (sels : list pystr) : loads (map EvSelect sels) = [].
Proof. by induction sels. Qed.

Lemma loads_url_trace (w : World) (url : pystr) : loads (url_trace w url) = [url].
Proof.
  unfold url_trace, load_trace. rewrite loads_app.
  assert (loads match load_outcome w url with
                | inl _ => []
                | inr _ => map EvSelect SELECTORS
                end = []) as ->.
  { destruct (load_outcome w url); [done | apply loads_select]. }
  destruct (get_result w url); [done|]. by destruct (ready_result w url).
Qed.

Lemma loads_keywords_trace (w : World) : loads (keywords_trace w) = [TRENDS_URL].
Proof.
  unfold keywords_trace.
  destruct (get_result w TRENDS_URL); [done|].
  by destruct (ready_result w TRENDS_URL).
Qed.

(** X12: a run loads no page twice and none but the three it knows: the
    pages loaded are, in this order, the trends page, the first ranking
    page and the second, or the first one or two of them. *)
Theorem collect_loads_each_page_once (w : World) (headless : bool)
    (st : DriverState) :
  ∃ pages,
    loads (trace (collect w headless st).2) = loads (trace st) ++ pages
    ∧ pages `prefix_of` [TRENDS_URL; URL_FIRST; URL_SECOND].
Proof.
  rewrite collect_trace, loads_app. simpl.
  destruct (build_result w headless).
  { exists []. split; [done | by eexists]. }
  rewrite loads_app. simpl. rewrite app_nil_r.
  exists (loads (scraping_trace w)). split; [done|].
  unfold scraping_trace. rewrite loads_app, loads_keywords_trace.
  destruct (keywords_outcome w); [|by eexists].
  unfold articles_trace. rewrite loads_app, loads_url_trace.
  destruct (url_outcome w URL_FIRST) as [[r|]|e];
    rewrite ?loads_url_trace; by eexists.
Qed.

(** X13: what [collect] raises is an exception of [build_driver] that is
    no [WebDriverException], or whatever [driver.quit()] raised, or, when
    closing went well, an exception of a page load that is no
    [WebDriverException]. *)
Theorem collect_raises_only (w : World) (headless : bool)
    (st : DriverState) (e : exn) :
  (collect w headless st).1 = Raise e →
  (build_result w headless = Some e ∧ is_WebDriverException e = false)
  ∨ (build_result w headless = None ∧ quit_result w = Some e)
  ∨ (build_result w headless = None ∧ quit_result w = None
     ∧ is_WebDriverException e = false
     ∧ ∃ url, url ∈ TRENDS_URL :: URLS ∧ load_outcome w url = inl e).
Proof.
  intros H. rewrite collect_value in H. unfold collect_outcome in H.
  destruct (build_result w headless) as [e'|].
  { destruct (is_WebDriverException e') eqn:Hwd; [done|].
    injection H as ->. by left. }
  right. destruct (quit_result w) as [e'|].
  { injection H as ->. by left. }
  right. split; [done|]. split; [done|].
  destruct (keywords_outcome w) as [keywords|e'] eqn:Hk.
  - destruct (articles_outcome w) as [articles|e''] eqn:Ha; [done|].
    injection H as ->. apply outcomes_raise. by right.
  - injection H as ->. apply outcomes_raise. by left.
Qed.

Lemma collect_raises_only_witness :
  (collect world_quit_raising true initial).1 = Raise quit_failure
  ∧ ((build_result world_quit_raising true = Some quit_failure
      ∧ is_WebDriverException quit_failure = false)
     ∨ (build_result world_quit_raising true = None
        ∧ quit_result world_quit_raising = Some quit_failure)
     ∨ (build_result world_quit_raising true = None
        ∧ quit_result world_quit_raising = None
        ∧ is_WebDriverException quit_failure = false
        ∧ ∃ url, url ∈ TRENDS_URL :: URLS
                 ∧ load_outcome world_quit_raising url = inl quit_failure)).
Proof.
  assert ((collect world_quit_raising true initial).1 = Raise quit_failure)
    as Hrun by (by vm_compute).
  split; [exact Hrun|].
  exact (collect_raises_only world_quit_raising true initial _ Hrun).
Defined.

(** ** derive_keywords_from_articles, further *)

Lemma tokens_blanking_elem_of (articles : list Article) (k : pystr) :
  k ∈ tokens_blanking articles →
  survives k ∧ ∃ a, a ∈ articles ∧ k ∈ split (blank_others (title a)).
Proof.
  unfold tokens_blanking. intros [l [Hl Hk]]%elem_of_concat.
  apply list_elem_of_fmap in Hl as [a [-> Ha]].
  apply list_elem_of_filter in Hk as [Hs Hk]. split; [done | by exists a].
Qed.

Lemma derive_keywords_take (articles : list Article) :
  derive_keywords_from_articles articles
  = take 10 (map fst (sorted_desc (tally (tokens_blanking articles)))).
Proof.
  rewrite derive_keywords_refines. unfold keywords_by_frequency, most_common.
  apply fmap_take.
Qed.

Lemma derive_keywords_elem_of (articles : list Article) (k : pystr) :
  k ∈ derive_keywords_from_articles articles → k ∈ tokens_blanking articles.
Proof.
  rewrite derive_keywords_take. intros Hk.
  pose proof (elem_of_sublist _ _ _ Hk (sublist_take _ _)) as Hk'.
  rewrite (proj1 (ranking_sorted _)) in Hk'.
  by apply (proj1 (first_seen_elem_of _ _)) in Hk'.
Qed.

Lemma derive_keywords_NoDup (articles : list Article) :
  NoDup (derive_keywords_from_articles articles).
Proof.
  rewrite derive_keywords_take.
  eapply sublist_NoDup; [|apply sublist_take].
  rewrite (proj1 (ranking_sorted _)). apply first_seen_NoDup.
Qed.

Lemma derive_keywords_count (articles : list Article) :
  length (derive_keywords_from_articles articles)
  = 10 `min` length (first_seen (tokens_blanking articles)).
Proof.
  rewrite derive_keywords_take, length_take.
  by rewrite (proj1 (ranking_sorted _)).
Qed.

(** X14: the derived keywords are pairwise distinct; each has at least
    two characters, all of them letters, digits or Korean syllables, is no
    stop word and is a token of some title; and there are as many of them as
    there are distinct such tokens, up to ten. *)
Theorem derive_keywords_tokens (articles : list Article) :
  NoDup (derive_keywords_from_articles articles)
  ∧ length (derive_keywords_from_articles articles)
    = 10 `min` length (first_seen (tokens_blanking articles))
  ∧ ∀ k, k ∈ derive_keywords_from_articles articles →
      2 ≤ length k ∧ (k ∉ STOP)
      ∧ Forall (λ c, is_word_char c = true) k
      ∧ ∃ a, a ∈ articles ∧ k ∈ split (blank_others (title a)).
Proof.
  split_and!; [apply derive_keywords_NoDup | apply derive_keywords_count |].
  intros k [[Hlen Hstop] [a [Ha Hk]]]%derive_keywords_elem_of
    %tokens_blanking_elem_of.
  split_and!; [done | done | | by exists a].
  by apply title_tokens_words in Hk as [_ ?].
Qed.

(** X15: the fallback comes back empty exactly when no title holds a
    token of two characters that is no stop word; the empty article list is
    one such case. *)
Theorem derive_keywords_empty (articles : list Article) :
  derive_keywords_from_articles articles = []
  ↔ ∀ a k, a ∈ articles → k ∈ split (blank_others (title a)) → ¬ survives k.
Proof.
  split.
  - intros Hempty a k Ha Hk Hs.
    assert (k ∈ tokens_blanking articles) as Hin.
    { unfold tokens_blanking. apply elem_of_concat.
      exists (filter survives (split (blank_others (title a)))). split.
      - apply list_elem_of_fmap. by exists a.
      - by apply list_elem_of_filter. }
    apply first_seen_elem_of in Hin.
    pose proof (derive_keywords_count articles) as Hcount.
    rewrite Hempty in Hcount. simpl in Hcount.
    destruct (first_seen (tokens_blanking articles)); [by apply elem_of_nil in Hin|].
    simpl in Hcount. lia.
  - intros Hnone.
    destruct (derive_keywords_from_articles articles) as [|k r] eqn:Hd; [done|].
    assert (k ∈ derive_keywords_from_articles articles) as Hk
      by (rewrite Hd; left).
    apply derive_keywords_elem_of, tokens_blanking_elem_of in Hk
      as [Hs [a [Ha Hk]]].
    by destruct (Hnone a k Ha Hk).
Qed.

(** ** The record, further *)

Lemma keywords_outcome_facts (w : World) (keywords : list pystr) :
  keywords_outcome w = Return keywords →
  length keywords ≤ 10 ∧ NoDup keywords ∧ ∀ k, k ∈ keywords → k ≠ [].
Proof.
  unfold keywords_outcome.
  destruct (load_outcome w TRENDS_URL) as [e|soup].
  { destruct (is_WebDriverException e); [|done]. intros [= <-].
    split_and!; [simpl; lia | constructor | by intros k ?%elem_of_nil]. }
  intros [= <-].
  destruct (tbody_rows soup) as [[|row rows]|];
    try (split_and!; [simpl; lia | constructor | by intros k ?%elem_of_nil]).
  rewrite unique_top_refines by lia. unfold unique_top_spec at 1 2.
  split_and!.
  - rewrite length_take. lia.
  - apply take_first_seen_NoDup.
  - by intros k [Hne _]%unique_top_spec_elem_of.
Qed.

Lemma articles_outcome_facts (w : World) (articles : list Article) :
  articles_outcome w = Return articles →
  (articles = [] ∨ length articles = 10)
  ∧ NoDup articles
  ∧ ∀ item, item ∈ articles →
      4 ≤ length (title item) ∧ contains ARTICLE_MARK (href item) = true.
Proof.
  assert (∀ url r, url_outcome w url = Return (Some r) →
            (r = [] ∨ length r = 10) ∧ NoDup r
            ∧ ∀ item, item ∈ r →
                4 ≤ length (title item)
                ∧ contains ARTICLE_MARK (href item) = true) as Hurl.
  { intros url r (soup & _ & Hten & ->)%url_outcome_Some. split_and!.
    - right. rewrite length_take. lia.
    - apply take_first_seen_NoDup.
    - by intros item ?%take_first_seen_elem_of%page_raw_valid. }
  unfold articles_outcome.
  destruct (url_outcome w URL_FIRST) as [[r|]|e] eqn:H1.
  - intros [= <-]. by eapply Hurl.
  - destruct (url_outcome w URL_SECOND) as [[r|]|e] eqn:H2.
    + intros [= <-]. by eapply Hurl.
    + intros [= <-].
      split_and!; [by left | constructor | by intros item ?%elem_of_nil].
    + done.
  - done.
Qed.

Lemma take_all {A} (n : nat) (l : list A) : length l ≤ n → take n l = l.
Proof. apply take_ge. Qed.

(** X16: on the normal path the slices [keywords[:10]] and
    [articles[:10]] drop nothing: the record holds the articles exactly as
    [scrape_popular_articles] returned them, and as keywords the scraped
    ones, or the derived ones when none were scraped. *)
Theorem collect_passes_results_on (w : World) (headless : bool)
    (st st' : DriverState) (d : pydict)
    (keywords : list pystr) (articles : list Article) :
  collect w headless st = (Return d, st') →
  build_result w headless = None →
  keywords_outcome w = Return keywords →
  articles_outcome w = Return articles →
  articles_of d = articles
  ∧ keywords_of d = match keywords with
                    | [] => derive_keywords_from_articles articles
                    | _ => keywords
                    end.
Proof.
  intros Hrun Hbuild Hk Ha.
  apply collect_returns in Hrun
    as [(e & Hbuild' & _) | (keywords' & articles' & _ & Hk' & Ha' & ->)].
  { by rewrite Hbuild in Hbuild'. }
  rewrite Hk in Hk'. rewrite Ha in Ha'. injection Hk' as <-. injection Ha' as <-.
  destruct (assemble_fields (now_isoformat w) keywords articles)
    as (_ & -> & -> & _).
  apply keywords_outcome_facts in Hk as (Hklen & _).
  apply articles_outcome_facts in Ha as (Halen & _).
  pose proof (derive_keywords_length articles) as Hdlen.
  split.
  - apply take_all. destruct Halen as [-> | ->]; simpl; lia.
  - unfold fallback_step. destruct keywords as [|k keywords].
    + destruct (derive_keywords_from_articles articles); [done|].
      by apply take_all.
    + by apply take_all.
Qed.

Lemma collect_passes_results_on_witness :
  collect news_world true initial
  = (Return news_record, (collect news_world true initial).2)
  ∧ build_result news_world true = None
  ∧ keywords_outcome news_world = Return []
  ∧ articles_outcome news_world = Return news_result
  ∧ articles_of news_record = news_result
  ∧ keywords_of news_record = derive_keywords_from_articles news_result.
Proof.
  assert (collect news_world true initial
          = (Return news_record, (collect news_world true initial).2))
    as Hrun by (vm_compute; reflexivity).
  assert (articles_outcome news_world = Return news_result) as Ha
    by (vm_compute; reflexivity).
  split_and!; [exact Hrun | reflexivity | reflexivity | exact Ha | ..];
    apply (collect_passes_results_on news_world true initial _ news_record
             [] news_result Hrun eq_refl eq_refl Ha).
Defined.

(** X17: every record [collect] returns keeps the bounds of its lists: at
    most ten keywords, pairwise distinct and non-empty; no article or
    exactly ten, pairwise distinct, each with a title of at least four
    characters and "/article/" in its href. *)
Theorem collect_record_invariants (w : World) (headless : bool)
    (st st' : DriverState) (d : pydict) :
  collect w headless st = (Return d, st') →
  length (keywords_of d) ≤ 10
  ∧ NoDup (keywords_of d)
  ∧ (∀ k, k ∈ keywords_of d → k ≠ [])
  ∧ (articles_of d = [] ∨ length (articles_of d) = 10)
  ∧ NoDup (articles_of d)
  ∧ (∀ item, item ∈ articles_of d →
       4 ≤ length (title item) ∧ contains ARTICLE_MARK (href item) = true).
Proof.
  intros [(e & _ & _ & ->) | (keywords & articles & _ & Hk & Ha & ->)]
    %collect_returns.
  { split_and!; [simpl; lia | constructor | by intros k ?%elem_of_nil
                | by left | constructor | by intros k ?%elem_of_nil]. }
  destruct (assemble_fields (now_isoformat w) keywords articles)
    as (_ & -> & -> & _).
  apply keywords_outcome_facts in Hk as (Hklen & Hknd & Hkne).
  apply articles_outcome_facts in Ha as (Halen & Hand & Haval).
  assert (NoDup (fallback_step keywords articles).1
          ∧ ∀ k, k ∈ (fallback_step keywords articles).1 → k ≠ [])
    as [Hnd Hne].
  { unfold fallback_step. destruct keywords as [|k0 keywords].
    - destruct (derive_keywords_from_articles articles) as [|k1 alt] eqn:Hd.
      + split; [constructor | by intros k ?%elem_of_nil].
      + simpl. rewrite <- Hd. split; [apply derive_keywords_NoDup|].
        intros k [[Hlen _] _]%derive_keywords_elem_of%tokens_blanking_elem_of.
        intros ->. simpl in Hlen. lia.
    - done. }
  split_and!.
  - rewrite length_take. lia.
  - eapply sublist_NoDup; [done | apply sublist_take].
  - intros k Hk. apply Hne. eapply elem_of_sublist; [done | apply sublist_take].
  - destruct Halen as [-> | Hten]; [by left | right].
    rewrite length_take. lia.
  - eapply sublist_NoDup; [done | apply sublist_take].
  - intros item Hitem. apply Haval.
    eapply elem_of_sublist; [done | apply sublist_take].
Qed.

Lemma collect_record_invariants_witness :
  collect news_world true initial
  = (Return news_record, (collect news_world true initial).2)
  ∧ length (keywords_of news_record) ≤ 10
  ∧ NoDup (keywords_of news_record)
  ∧ (∀ k, k ∈ keywords_of news_record → k ≠ [])
  ∧ (articles_of news_record = [] ∨ length (articles_of news_record) = 10)
  ∧ NoDup (articles_of news_record)
  ∧ (∀ item, item ∈ articles_of news_record →
       4 ≤ length (title item) ∧ contains ARTICLE_MARK (href item) = true).
Proof.
  assert (collect news_world true initial
          = (Return news_record, (collect news_world true initial).2))
    as Hrun by (vm_compute; reflexivity).
  split; [exact Hrun|].
  exact (collect_record_invariants news_world true initial _ news_record Hrun).
Defined.

Lemma messages_distinct :
  MSG_FALLBACK ≠ MSG_NO_KEYWORDS ∧ MSG_FALLBACK ≠ MSG_NO_ARTICLES
  ∧ MSG_NO_KEYWORDS ≠ MSG_NO_ARTICLES.
Proof. split_and!; discriminate. Qed.

(** X18: on the normal path each warning means what it says: the
    no-keywords warning is there exactly when the record has no keywords,
    the no-articles warning exactly when it has no articles, and the
    fallback notice only beside keywords and articles; the fallback notice
    therefore never stands with either of the other two, and there are at
    most two warnings. *)
Theorem collect_warning_meaning (w : World) (headless : bool)
    (st st' : DriverState) (d : pydict) :
  collect w headless st = (Return d, st') →
  build_result w headless = None →
  (MSG_NO_KEYWORDS ∈ warnings_of d ↔ keywords_of d = [])
  ∧ (MSG_NO_ARTICLES ∈ warnings_of d ↔ articles_of d = [])
  ∧ (MSG_FALLBACK ∈ warnings_of d →
     keywords_of d ≠ [] ∧ articles_of d ≠ [])
  ∧ length (warnings_of d) ≤ 2.
Proof.
  intros Hrun Hbuild.
  apply collect_returns in Hrun
    as [(e & Hbuild' & _) | (keywords & articles & _ & _ & _ & ->)].
  { by rewrite Hbuild in Hbuild'. }
  destruct (assemble_fields (now_isoformat w) keywords articles)
    as (_ & -> & -> & ->).
  destruct messages_distinct as (Hfk & Hfa & Hka).
  unfold fallback_step, articles_step.
  destruct keywords as [|k0 keywords];
    [destruct (derive_keywords_from_articles articles) as [|k1 alt] eqn:Hd|];
    destruct articles as [|a0 articles]; simpl in *;
    try discriminate Hd;
    rewrite ?elem_of_cons, ?elem_of_nil;
    (split_and!; [naive_solver | naive_solver | naive_solver | lia]).
Qed.

Lemma collect_warning_meaning_witness :
  collect news_world true initial
  = (Return news_record, (collect news_world true initial).2)
  ∧ build_result news_world true = None
  ∧ (MSG_NO_KEYWORDS ∈ warnings_of news_record ↔ keywords_of news_record = [])
  ∧ (MSG_NO_ARTICLES ∈ warnings_of news_record ↔ articles_of news_record = [])
  ∧ (MSG_FALLBACK ∈ warnings_of news_record →
     keywords_of news_record ≠ [] ∧ articles_of news_record ≠ [])
  ∧ length (warnings_of news_record) ≤ 2.
Proof.
  assert (collect news_world true initial
          = (Return news_record, (collect news_world true initial).2))
    as Hrun by (vm_compute; reflexivity).
  split; [exact Hrun|]. split; [reflexivity|].
  exact (collect_warning_meaning news_world true initial _ news_record
           Hrun eq_refl).
Defined.

(** ** print_text *)

Lemma print_keywords_length (i : nat) (keywords : list pystr) :
  length (print_keywords i keywords) = length keywords.
Proof.
  revert i. induction keywords as [|k rest IH]; intros i; simpl; [done|].
  by rewrite IH.
Qed.

Lemma print_articles_length (i : nat) (articles : list Article) :
  length (print_articles i articles) = 2 * length articles.
Proof.
  revert i. induction articles as [|a rest IH]; intros i; simpl; [done|].
  rewrite IH. lia.
Qed.

Lemma print_keywords_lookup (i j : nat) (keywords : list pystr) (k : pystr) :
  keywords !! j = Some k →
  print_keywords i keywords !! j = Some (decimal (i + j) ++ py ". " ++ k).
Proof.
  revert i j. induction keywords as [|k0 rest IH]; intros i j; [done|].
  destruct j as [|j]; simpl.
  - intros [= ->]. by rewrite Nat.add_0_r.
  - intros Hj. rewrite (IH (S i) j Hj). do 3 f_equal. lia.
Qed.

(** The text of a record that has the three lists. *)
Lemma print_text_lists (d : pydict) (keywords : list pystr)
    (articles : list Article) (warnings : list pystr) :
  get d "keywords" = Some (VStrList keywords) →
  get d "articles" = Some (VArticles articles) →
  get d "warnings" = Some (VStrList warnings) →
  print_text d
  = Printed (HEADER_KEYWORDS :: print_keywords 1 keywords
             ++ HEADER_ARTICLES :: print_articles 1 articles
             ++ print_warnings warnings).
Proof.
  intros Hk Ha Hw. unfold print_text. rewrite Hk, Ha, Hw. f_equal. simpl.
  by rewrite <- !(assoc_L (++)).
Qed.

(** The three lists of a record [collect] returns. *)
Lemma collect_record_lists (w : World) (headless : bool)
    (st st' : DriverState) (d : pydict) :
  collect w headless st = (Return d, st') →
  get d "keywords" = Some (VStrList (keywords_of d))
  ∧ get d "articles" = Some (VArticles (articles_of d))
  ∧ get d "warnings" = Some (VStrList (warnings_of d)).
Proof.
  intros [(e & _ & _ & ->) | (keywords & articles & _ & _ & _ & ->)]
    %collect_returns; [done|].
  unfold assemble. by destruct (fallback_step keywords articles).
Qed.

(** X19: [print_text] completes on every record [collect] returns, the
    one of a failed driver start included: no key it reads is ever
    missing.  It prints the two headers, one line for each keyword, two for
    each article and, when there are warnings, a caution header and one
    line for each warning. *)
Theorem print_text_collect (w : World) (headless : bool)
    (st st' : DriverState) (d : pydict) :
  collect w headless st = (Return d, st') →
  ∃ lines,
    print_text d = Printed lines
    ∧ length lines
      = 2 + length (keywords_of d) + 2 * length (articles_of d)
        + match warnings_of d with
          | [] => 0
          | warnings => S (length warnings)
          end.
Proof.
  intros (Hk & Ha & Hw)%collect_record_lists.
  eexists. split; [by apply print_text_lists|].
  simpl. rewrite length_app. simpl.
  rewrite length_app, print_keywords_length, print_articles_length.
  destruct (warnings_of d); simpl; rewrite ?length_map; lia.
Qed.

Lemma print_text_collect_witness :
  collect (world_build_raising no_chrome) true initial
  = (Return (driver_failure_record no_chrome),
     (collect (world_build_raising no_chrome) true initial).2)
  ∧ ∃ lines,
      print_text (driver_failure_record no_chrome) = Printed lines
      ∧ length lines
        = 2 + length (keywords_of (driver_failure_record no_chrome))
          + 2 * length (articles_of (driver_failure_record no_chrome))
          + match warnings_of (driver_failure_record no_chrome) with
            | [] => 0
            | warnings => S (length warnings)
            end.
Proof.
  assert (collect (world_build_raising no_chrome) true initial
          = (Return (driver_failure_record no_chrome),
             (collect (world_build_raising no_chrome) true initial).2))
    as Hrun by (vm_compute; reflexivity).
  split; [exact Hrun|].
  exact (print_text_collect (world_build_raising no_chrome) true initial _ _
           Hrun).
Defined.

(** X20: when a record [collect] returns has no keywords or no articles,
    what [print_text] prints ends with the caution header and one line
    "- ..." for each warning, of which there is at least one. *)
Theorem print_text_explains_missing (w : World) (headless : bool)
    (st st' : DriverState) (d : pydict) :
  collect w headless st = (Return d, st') →
  keywords_of d = [] ∨ articles_of d = [] →
  warnings_of d ≠ []
  ∧ ∃ before,
      print_text d
      = Printed (before ++ HEADER_CAUTION
                           :: map (λ m, py "- " ++ m) (warnings_of d)).
Proof.
  intros Hrun Hmissing.
  assert (warnings_of d ≠ []) as Hw.
  { apply collect_returns in Hrun
      as [(e & _ & _ & ->) | (keywords & articles & _ & _ & _ & ->)]; [done|].
    by apply assemble_warnings. }
  split; [done|].
  apply collect_record_lists in Hrun as (Hk & Ha & Hws).
  rewrite (print_text_lists d _ _ _ Hk Ha Hws).
  exists (HEADER_KEYWORDS :: print_keywords 1 (keywords_of d)
          ++ HEADER_ARTICLES :: print_articles 1 (articles_of d)).
  f_equal. unfold print_warnings. destruct (warnings_of d); [done|].
  simpl. by rewrite <- !(assoc_L (++)).
Qed.

Lemma print_text_explains_missing_witness :
  collect blank_world true initial
  = (Return blank_record, (collect blank_world true initial).2)
  ∧ (keywords_of blank_record = [] ∨ articles_of blank_record = [])
  ∧ warnings_of blank_record ≠ []
  ∧ ∃ before,
      print_text blank_record
      = Printed (before ++ HEADER_CAUTION
                           :: map (λ m, py "- " ++ m) (warnings_of blank_record)).
Proof.
  assert (collect blank_world true initial
          = (Return blank_record, (collect blank_world true initial).2))
    as Hrun by (vm_compute; reflexivity).
  assert (keywords_of blank_record = [] ∨ articles_of blank_record = [])
    as Hmissing by (left; reflexivity).
  split; [exact Hrun|]. split; [exact Hmissing|].
  exact (print_text_explains_missing blank_world true initial _ blank_record
           Hrun Hmissing).
Defined.

(** X21: the keywords are printed right after the first header, in their
    order, numbered from 1. *)
Theorem print_text_numbers_keywords (w : World) (headless : bool)
    (st st' : DriverState) (d : pydict) (j : nat) (k : pystr) :
  collect w headless st = (Return d, st') →
  keywords_of d !! j = Some k →
  ∃ lines,
    print_text d = Printed lines
    ∧ lines !! 0 = Some HEADER_KEYWORDS
    ∧ lines !! S j = Some (decimal (S j) ++ py ". " ++ k).
Proof.
  intros (Hk & Ha & Hw)%collect_record_lists Hj.
  eexists. split; [by apply print_text_lists|]. split; [done|].
  simpl. rewrite lookup_app_l.
  - by apply (print_keywords_lookup 1 j).
  - rewrite print_keywords_length. by apply lookup_lt_Some in Hj.
Qed.

Lemma print_text_numbers_keywords_witness :
  collect weather_world true initial
  = (Return weather_record, (collect weather_world true initial).2)
  ∧ keywords_of weather_record !! 0
    = Some [50724; 45720; 32; 45216; 50472]%N
  ∧ ∃ lines,
      print_text weather_record = Printed lines
      ∧ lines !! 0 = Some HEADER_KEYWORDS
      ∧ lines !! 1
        = Some (decimal 1 ++ py ". " ++ [50724; 45720; 32; 45216; 50472]%N).
Proof.
  assert (collect weather_world true initial
          = (Return weather_record, (collect weather_world true initial).2))
    as Hrun by (vm_compute; reflexivity).
  assert (keywords_of weather_record !! 0
          = Some [50724; 45720; 32; 45216; 50472]%N) as Hk by reflexivity.
  split; [exact Hrun|]. split; [exact Hk|].
  exact (print_text_numbers_keywords weather_world true initial _
           weather_record 0 _ Hrun Hk).
Defined.

(** X23 on a normal run and on a failed driver start. *)
Lemma collect_keys_witness :
  collect news_world true initial
  = (Return news_record, (collect news_world true initial).2)
  ∧ keys news_record
    = ["updatedAt"; "keywords"; "articles"; "warnings"]%string.
Proof.
  assert (collect news_world true initial
          = (Return news_record, (collect news_world true initial).2))
    as Hrun by (vm_compute; reflexivity).
  split; [exact Hrun|].
  exact (collect_keys news_world true initial _ news_record Hrun).
Defined.

(** One keyword, no article: what [print_text] prints. *)
Example print_text_scenario :
  print_text weather_record
  = Printed [ HEADER_KEYWORDS;
              py "1. " ++ [50724; 45720; 32; 45216; 50472]%N;
              HEADER_ARTICLES;
              HEADER_CAUTION;
              py "- " ++ MSG_NO_ARTICLES ].
Proof. by vm_compute. Qed.

Example decimal_scenario : decimal 10 = py "10" ∧ decimal 0 = py "0".
Proof. by vm_compute. Qed.

(** X8 on a run whose first page offers ten entries. *)
Lemma scrape_popular_articles_provenance_witness :
  scrape_popular_articles news_world initial = (Return news_result, news_state)
  ∧ ∀ item, item ∈ news_result →
      normal_text (title item)
      ∧ is_absolute (href item) = true
      ∧ normalize_article_href (href item) = href item
      ∧ ∃ url soup sel a,
          url ∈ URLS ∧ load_outcome news_world url = inr soup
          ∧ sel ∈ SELECTORS ∧ a ∈ select soup sel
          ∧ title item = normalize_text (a_text a)
          ∧ href item = normalize_article_href (default [] (a_href a)).
Proof.
  assert (scrape_popular_articles news_world initial
          = (Return news_result, news_state)) as Hrun
    by (vm_compute; reflexivity).
  split; [exact Hrun|].
  exact (scrape_popular_articles_provenance news_world initial news_state
           news_result Hrun).
Defined.
